(** * toolkit/v2: a shallow embedding of [tools.go]

    The Go package [toolkit] (file [v2/tools.go]) is embedded function by
    function.  Go strings are byte strings ([string], one [ascii] per byte),
    [int]/[int64] are [Z] (64-bit platform, no arithmetic in the file can
    wrap), a pair of results [(v, err)] is a Rocq pair whose second
    component is an [option error] ([None] is Go's [nil]).  State that the
    Go code mutates -- the receiver [*Tools], the file system and the
    entropy source behind [crypto/rand] -- lives in a [World] record that is
    threaded through a small state monad whose outcomes distinguish a normal
    return from a run-time panic.

    What the package takes from Go's standard library is either an
    interface ([GoLib], [JSONLib], [MarshalLib], [HTTPLib]) that the
    theorems quantify over, or a small model of the documented behaviour
    ([path/filepath], [os], [multipart.File]).  The file system has no
    symbolic links and no permissions, and resolves a path as the kernel
    does, component by component; a request is what the form parser makes
    of it ([Part_FileName] is what it makes of a file name); the order
    of a form's fields is the order in which [range] visits the map.
    Executable reference implementations of the interfaces run the model on
    the inputs of the package's own tests. *)

From Stdlib Require Import ZArith Ascii String DecimalString Lia.
From stdpp Require Import base gmap strings list.

Local Open Scope Z_scope.

(** ** Go strings as byte lists *)

Definition bytes_of (s : string) : list ascii := list_ascii_of_string s.
Definition string_of (l : list ascii) : string := string_of_list_ascii l.

(** [len(s)] *)
Definition len (s : string) : Z := Z.of_nat (String.length s).

(** ** Errors

    Go's [error] values that can flow through the package.  Errors built
    with [fmt.Errorf] keep their format string and arguments. *)

Inductive errno := ENOENT | ENOTDIR | EEXIST | EISDIR | EIO.

Inductive fmtArg :=
| argInt (z : Z)
| argString (s : string).

Inductive error :=
| errorsNew (text : string)
| fmtErrorf (format : string) (args : list fmtArg)
| io_EOF
| io_ErrUnexpectedEOF
| os_PathError (op path : string) (code : errno)
| json_SyntaxError (msg : string) (Offset : Z)
| json_UnmarshalTypeError (Value GoType Struct Field : string) (Offset : Z)
| json_InvalidUnmarshalError (text : string)
| otherError (text : string).

(** [os.IsNotExist] *)
Definition os_IsNotExist (e : option error) : bool :=
  match e with
  | Some (os_PathError _ _ ENOENT) => true
  | _ => false
  end.

(** ** The parts of Go's standard library the package relies on

    These functions are not part of the repository.  They are taken as an
    interface; every theorem below holds for all implementations of it.
    [ToLower_ascii] records the one fact about [strings.ToLower] that the
    slug examples need: on a string of ASCII bytes it maps [A-Z] to [a-z]
    and leaves the other bytes alone. *)

Definition isUpper (c : ascii) : bool := Ascii.leb "A" c && Ascii.leb c "Z".
Definition isLower (c : ascii) : bool := Ascii.leb "a" c && Ascii.leb c "z".
Definition isDigit (c : ascii) : bool := Ascii.leb "0" c && Ascii.leb c "9".
Definition isASCII (c : ascii) : bool := Ascii.ltb c "128".

Definition lowerByte (c : ascii) : ascii :=
  if isUpper c then ascii_of_N (N_of_ascii c + 32) else c.

Definition asciiLower (s : string) : string :=
  string_of (map lowerByte (bytes_of s)).

Class GoLib := {
  (** [http.DetectContentType] *)
  DetectContentType : list ascii → string;
  (** [strings.EqualFold] *)
  EqualFold : string → string → bool;
  (** [strings.ToLower] *)
  ToLower : string → string;
  (** [fmt.Sprintf] *)
  Sprintf : string → list fmtArg → string;
  ToLower_ascii : ∀ s,
    forallb isASCII (bytes_of s) = true → ToLower s = asciiLower s
}.

(** ** [RandomString] *)

Definition randomStringSource : string :=
  "abcdefghijklmnopqrstuwxyzABCDEFGHIJKLMNOPQRSTUWXYZ0123456789_+@".

(** The source is ASCII, so [[]rune(randomStringSource)] has one rune per
    byte. *)
Definition runes (s : string) : list ascii := bytes_of s.

(** [big.Int.Uint64]: the low 64 bits of the absolute value. *)
Definition Uint64 (p : Z) : Z := Z.abs p mod 2 ^ 64.

(** The entropy source: [rand.Prime(rand.Reader, bits)] hands out the next
    number of the stream.  Nothing is assumed about the numbers (the code
    never checks them either); the reader is taken to deliver, the code
    drops the error of [rand.Prime]. *)
Record Rand := mkRand { stream : nat → Z; drawn : nat }.

Definition rand_Prime (rd : Rand) (bits : Z) : Z * Rand :=
  (stream rd (drawn rd), mkRand (stream rd) (S (drawn rd))).

(** One iteration of the loop body: [s[i] = r[x%y]].  The index is below
    [len(r)], so the default of [nth] is never taken. *)
Definition pick (r : list ascii) (p : Z) : ascii :=
  let x := Uint64 p in
  let y := Z.of_nat (length r) in
  nth (Z.to_nat (x mod y)) r "000"%char.

(** [for i := range s { ... }] over a slice of [n] runes. *)
Fixpoint fillRunes (r : list ascii) (n : nat) (rd : Rand) : list ascii * Rand :=
  match n with
  | O => ([], rd)
  | S k =>
      let '(p, rd1) := rand_Prime rd (Z.of_nat (length r)) in
      let '(rest, rd2) := fillRunes r k rd1 in
      (pick r p :: rest, rd2)
  end.

(** ** [Slugify] *)

(** The character class [[a-z\d]]; the pattern is its complement, one or
    more times. *)
Definition slugChar (c : ascii) : bool := isLower c || isDigit c.

Definition dash : ascii := "-"%char.

(** [regexp.MustCompile(`[^a-z\d]+`).ReplaceAllString(s, "-")]: every
    maximal run of bytes outside [[a-z\d]] becomes one ['-'].  [inRun] says
    that the byte before the current one already belonged to a match.  (A
    rune outside ASCII is encoded by bytes >= 0x80 only, so runs of runes
    and runs of bytes coincide.) *)
Fixpoint replaceRuns (inRun : bool) (s : list ascii) : list ascii :=
  match s with
  | [] => []
  | c :: rest =>
      if slugChar c then c :: replaceRuns false rest
      else if inRun then replaceRuns true rest
      else "-"%char :: replaceRuns true rest
  end.

Definition ReplaceAllString (s : string) : string :=
  string_of (replaceRuns false (bytes_of s)).

(** [strings.TrimLeft(s, "-")], [strings.TrimRight(s, "-")] and
    [strings.Trim(s, "-")] on byte lists. *)
Fixpoint trimLeft (s : list ascii) : list ascii :=
  match s with
  | c :: rest => if Ascii.eqb c "-" then trimLeft rest else s
  | [] => []
  end.

Definition trimRight (s : list ascii) : list ascii := rev (trimLeft (rev s)).

Definition Trim (s : string) : string :=
  string_of (trimRight (trimLeft (bytes_of s))).

Section Slug.
Context `{GoLib}.

Definition Slugify (s : string) : string * option error :=
  if String.eqb s "" then
    (""%string, Some (errorsNew "empty string is not permitted"))
  else
    let slug := Trim (ReplaceAllString (ToLower s)) in
    if len slug =? 0 then
      (""%string,
       Some (errorsNew "after removing characters, slug is zero length"))
    else (slug, None).
End Slug.

(** ** Lexical paths ([path/filepath], Unix) *)

(** [strings.Split(p, "/")]; [cur] collects the current element backwards. *)
Fixpoint splitSlash (cur : list ascii) (s : list ascii) : list string :=
  match s with
  | [] => [string_of (rev cur)]
  | c :: rest =>
      if Ascii.eqb c "/" then string_of (rev cur) :: splitSlash [] rest
      else splitSlash (c :: cur) rest
  end.

Definition isRooted (p : string) : bool :=
  match p with
  | String c _ => Ascii.eqb c "/"
  | EmptyString => false
  end.

(** The element stack of [filepath.Clean], top first: empty and ["."]
    elements are dropped, [".."] removes the element before it, is dropped
    at the root and is kept at the start of a relative path. *)
Fixpoint cleanElems (rooted : bool) (stack : list string) (elems : list string)
  : list string :=
  match elems with
  | [] => rev stack
  | e :: rest =>
      if String.eqb e "" || String.eqb e "." then cleanElems rooted stack rest
      else if String.eqb e ".." then
        match stack with
        | top :: below =>
            if String.eqb top ".." then cleanElems rooted (e :: stack) rest
            else cleanElems rooted below rest
        | [] =>
            if rooted then cleanElems rooted [] rest
            else cleanElems rooted [e] rest
        end
      else cleanElems rooted (e :: stack) rest
  end.

Fixpoint joinSlash (elems : list string) : string :=
  match elems with
  | [] => ""
  | [e] => e
  | e :: rest => e +:+ "/" +:+ joinSlash rest
  end.

Definition renderPath (rooted : bool) (elems : list string) : string :=
  if rooted then "/" +:+ joinSlash elems
  else match elems with
       | [] => "."
       | _ => joinSlash elems
       end.

Definition elemsOf (p : string) : list string :=
  cleanElems (isRooted p) [] (splitSlash [] (bytes_of p)).

Definition filepath_Clean (p : string) : string :=
  renderPath (isRooted p) (elemsOf p).

(** [filepath.Join(a, b)]: empty elements are ignored, the rest is joined
    with a slash and cleaned; the result is empty when both are. *)
Definition filepath_Join (a b : string) : string :=
  if negb (String.eqb a "") then filepath_Clean (a +:+ "/" +:+ b)
  else if negb (String.eqb b "") then filepath_Clean b
  else "".

(** [filepath.Ext]: scan backwards to the last dot of the last element. *)
Fixpoint extRev (acc : list ascii) (revp : list ascii) : list ascii :=
  match revp with
  | [] => []
  | c :: rest =>
      if Ascii.eqb c "/" then []
      else if Ascii.eqb c "." then c :: acc
      else extRev (c :: acc) rest
  end.

Definition filepath_Ext (p : string) : string :=
  string_of (extRev [] (rev (bytes_of p))).

(** [filepath.Base]: trailing slashes are dropped, then the last element
    is taken; the empty path gives [.], a path of slashes gives [/]. *)
Fixpoint dropSlashes (revp : list ascii) : list ascii :=
  match revp with
  | [] => []
  | c :: rest => if Ascii.eqb c "/" then dropSlashes rest else revp
  end.

Fixpoint lastElemRev (revp : list ascii) : list ascii :=
  match revp with
  | [] => []
  | c :: rest => if Ascii.eqb c "/" then [] else c :: lastElemRev rest
  end.

Definition filepath_Base (path : string) : string :=
  if String.eqb path "" then "."
  else
    match rev (lastElemRev (dropSlashes (rev (bytes_of path)))) with
    | [] => "/"
    | e => string_of e
    end.


(** ** The file system

    A disk maps cleaned path names to nodes.  [os.Stat], [os.Mkdir] and
    [os.Create] hand the path as it is to the kernel, which resolves it
    component by component (there are no symbolic links and no
    permissions here): a relative path starts at ["."], an absolute one
    at ["/"]; an empty component or [.] stays where it is, [..] goes to
    the parent, a name goes to the entry of that name.  Every directory
    that is gone through has to exist and to be a directory, those that
    a later [..] leaves again too. *)

Inductive node :=
| Dir
| Regular (data : list ascii).

(** The directories on the way to the cleaned [p], outermost first. *)
Definition ancestors (p : string) : list string :=
  let rooted := isRooted p in
  let elems := elemsOf p in
  map (λ k, renderPath rooted (take k elems)) (seq 0 (length elems)).

(** One step of the walk: where the component [e] leads from the
    directory with the elements [stack] (the last one first).  These are
    the steps of [cleanElems]. *)
Definition stepInto (rooted : bool) (stack : list string) (e : string) : list string :=
  if String.eqb e "" || String.eqb e "." then stack
  else if String.eqb e ".." then
    match stack with
    | top :: below => if String.eqb top ".." then e :: stack else below
    | [] => if rooted then [] else [e]
    end
  else e :: stack.

(** The directories that the components [comps] lead through, one after
    the other, from the directory [stack]. *)
Fixpoint visitedFrom (rooted : bool) (stack : list string) (comps : list string)
  : list string :=
  match comps with
  | [] => []
  | e :: rest =>
      let stack' := stepInto rooted stack e in
      (if String.eqb e "" || String.eqb e "." then []
       else [renderPath rooted (rev stack')])
        ++ visitedFrom rooted stack' rest
  end.

Fixpoint dropEmpty (revcomps : list string) : list string :=
  match revcomps with
  | [] => []
  | e :: rest => if String.eqb e "" then dropEmpty rest else revcomps
  end.

(** The components that are gone through as directories before the last
    one is looked up: trailing slashes do not count, and a last component
    [.] or [..] is gone through as well. *)
Definition dirPart (comps : list string) : list string :=
  match dropEmpty (rev comps) with
  | [] => []
  | last :: before =>
      if String.eqb last "." || String.eqb last ".." then rev (last :: before)
      else rev before
  end.

(** The directories that resolving [p] goes through, the first one first. *)
Definition visited (p : string) : list string :=
  let rooted := isRooted p in
  renderPath rooted [] :: visitedFrom rooted [] (dirPart (splitSlash [] (bytes_of p))).

(** A slash at the end of a path that has more than this slash. *)
Definition trailingSlash (p : string) : bool :=
  match rev (bytes_of p) with
  | c :: _ :: _ => Ascii.eqb c "/"
  | _ => false
  end.

Fixpoint walk (disk : gmap string node) (dirs : list string) : option errno :=
  match dirs with
  | [] => None
  | d :: rest =>
      match disk !! d with
      | Some Dir => walk disk rest
      | Some (Regular _) => Some ENOTDIR
      | None => Some ENOENT
      end
  end.

(** Resolving the directories on the way to a name; the empty name does
    not resolve.  When this succeeds, the name stands for the entry
    [filepath_Clean p] of the disk. *)
Definition resolve (disk : gmap string node) (p : string) : option errno :=
  if String.eqb p "" then Some ENOENT else walk disk (visited p).

(** [os.Stat]; a regular file does not answer to a name with a slash at
    its end. *)
Definition stat (disk : gmap string node) (p : string) : error + node :=
  match resolve disk p with
  | Some code => inl (os_PathError "stat" p code)
  | None =>
      match disk !! filepath_Clean p with
      | Some (Regular data) =>
          if trailingSlash p then inl (os_PathError "stat" p ENOTDIR)
          else inr (Regular data)
      | Some Dir => inr Dir
      | None => inl (os_PathError "stat" p ENOENT)
      end
  end.

(** [os.Mkdir]: one level only.  A directory whose name is free and
    whose parent is there is made: that a directory cannot be written to
    (permissions, a read-only or a full file system) is not part of this
    disk. *)
Definition mkdir (disk : gmap string node) (p : string)
  : error + gmap string node :=
  match resolve disk p with
  | Some code => inl (os_PathError "mkdir" p code)
  | None =>
      match disk !! filepath_Clean p with
      | Some _ => inl (os_PathError "mkdir" p EEXIST)
      | None => inr (<[filepath_Clean p := Dir]> disk)
      end
  end.

(** [os.Create]: create or truncate; the handle is the cleaned name.  A
    name with a slash at its end is refused as a directory is. *)
Definition create (disk : gmap string node) (p : string)
  : error + (string * gmap string node) :=
  match resolve disk p with
  | Some code => inl (os_PathError "open" p code)
  | None =>
      match disk !! filepath_Clean p with
      | Some Dir => inl (os_PathError "open" p EISDIR)
      | _ =>
          if trailingSlash p then inl (os_PathError "open" p EISDIR)
          else inr (filepath_Clean p, <[filepath_Clean p := Regular []]> disk)
      end
  end.

(** ** The package's data types *)

Record Tools := mkTools {
  MaxFileSize : Z;
  AllowedFileTypes : list string;
  MaxJSONSize : Z;
  AllowUnknownFields : bool
}.

Record UploadedFile := mkUploadedFile {
  NewFileName : string;
  OriginalFileName : string;
  FileSize : Z
}.

(** ** The world and its monad *)

Record World := mkWorld {
  tools : Tools;              (* the receiver [t *Tools] *)
  disk : gmap string node;    (* the file system *)
  entropy : Rand              (* [rand.Reader] *)
}.

Inductive outcome (A : Type) :=
| Returned (a : A)
| Panicked (msg : string).
Arguments Returned {A} a.
Arguments Panicked {A} msg.

Definition M (A : Type) : Type := World → outcome A * World.

#[global] Instance M_ret : MRet M := λ A a w, (Returned a, w).

#[global] Instance M_bind : MBind M := λ A B k m w,
  match m w with
  | (Returned a, w') => k a w'
  | (Panicked msg, w') => (Panicked msg, w')
  end.

Definition panic {A} (msg : string) : M A := λ w, (Panicked msg, w).

Definition getTools : M Tools := λ w, (Returned (tools w), w).

Definition setTools (t : Tools) : M unit :=
  λ w, (Returned tt, mkWorld t (disk w) (entropy w)).

Definition getDisk : M (gmap string node) := λ w, (Returned (disk w), w).

Definition setDisk (d : gmap string node) : M unit :=
  λ w, (Returned tt, mkWorld (tools w) d (entropy w)).

(** [RandomString]: [make([]rune, n)] panics on a negative length. *)
Definition RandomString (n : Z) : M string :=
  if n <? 0 then panic "makeslice: len out of range"
  else λ w,
    let '(s, rd) := fillRunes (runes randomStringSource) (Z.to_nat n) (entropy w) in
    (Returned (string_of s), mkWorld (tools w) (disk w) rd).

(** ** Multipart requests

    [multipart.File]: the bytes of the part, the read position, and what
    the device has in store: a fault of [Read], of [Seek] or of the reads
    and writes of [io.Copy]. *)

Record File := mkFile {
  content : list ascii;
  pos : nat;
  readFault : option error;
  seekFault : option error;
  copyFault : option error
}.

(** [multipart.FileHeader] with the result of its [Open] method (a file
    that was just opened is at position 0; nothing below depends on it). *)
Record FileHeader := mkFileHeader {
  Filename : string;
  Open : error + File
}.

(** [r.MultipartForm.File], a map from field names to headers, in the order
    in which [range] happens to visit it. *)
Definition Form : Type := list (string * list FileHeader).

(** [*http.Request]: what [ParseMultipartForm(maxMemory)] makes of the
    request, and the bytes of its body. *)
Record Request := mkRequest {
  ParseMultipartForm : Z → error + Form;
  Body : list ascii
}.

(** [f.Read(buff)] into a fresh zeroed buffer of [size] bytes: the buffer
    afterwards, the number of bytes read, the error, and the file with its
    new position.  At the end of the content [Read] returns [0, io.EOF]. *)
Definition Read (f : File) (size : nat)
  : list ascii * Z * option error * File :=
  let zeroes := repeat "000"%char in
  match readFault f with
  | Some e => (zeroes size, 0, Some e, f)
  | None =>
      match take size (drop (pos f) (content f)) with
      | [] => (zeroes size, 0, Some io_EOF, f)
      | chunk =>
          (chunk ++ zeroes (size - length chunk)%nat,
           Z.of_nat (length chunk), None,
           mkFile (content f) (pos f + length chunk)
                  (readFault f) (seekFault f) (copyFault f))
      end
  end.

(** [f.Seek(0, 0)] *)
Definition Seek0 (f : File) : option error * File :=
  match seekFault f with
  | Some e => (Some e, f)
  | None =>
      (None, mkFile (content f) 0 (readFault f) (seekFault f) (copyFault f))
  end.

(** [io.Copy(outfile, infile)]: everything from the read position on is
    written to the file behind the handle. *)
Definition io_Copy (outfile : string) (infile : File) : M (Z * option error) :=
  match copyFault infile with
  | Some e => mret (0, Some e)
  | None =>
      let data := drop (pos infile) (content infile) in
      d ← getDisk;
      setDisk (<[outfile := Regular data]> d);;
      mret (Z.of_nat (length data), None)
  end.

Definition os_Stat (p : string) : M (error + node) :=
  d ← getDisk; mret (stat d p).

Definition os_Mkdir (p : string) (mode : Z) : M (option error) :=
  d ← getDisk;
  match mkdir d p with
  | inl e => mret (Some e)
  | inr d' => setDisk d';; mret None
  end.

Definition os_Create (p : string) : M (error + string) :=
  d ← getDisk;
  match create d p with
  | inl e => mret (inl e)
  | inr (h, d') => setDisk d';; mret (inr h)
  end.

Definition errOf {A} (r : error + A) : option error :=
  match r with
  | inl e => Some e
  | inr _ => None
  end.

(** ** [CreateDirIfNotExist] *)

Definition CreateDirIfNotExist (path : string) : M (option error) :=
  let mode := 493 (* 0755 *) in
  st ← os_Stat path;
  if os_IsNotExist (errOf st) then
    err ← os_Mkdir path mode;
    match err with
    | Some e => mret (Some e)
    | None => mret None
    end
  else mret None.

(** ** [UploadFiles] and [UploadOneFile] *)

(** What a loop body hands back: leave the function with a result, or go on
    with the next element. *)
Inductive flow (R S : Type) :=
| Return (r : R)
| Next (s : S).
Arguments Return {R S} r.
Arguments Next {R S} s.

Section Upload.
Context `{GoLib}.

(** The allow-list test of the closure, written as the loop it is. *)
Definition isAllowed (allowedFileTypes : list string) (fileType : string) : bool :=
  if (0 <? Z.of_nat (length allowedFileTypes)) then
    fold_left (λ allowed x, if EqualFold fileType x then true else allowed)
              allowedFileTypes false
  else true.

(** The function literal applied to every header.  The deferred
    [infile.Close()] and [outfile.Close()] (the latter on the outer, nil
    [*os.File], which returns [os.ErrInvalid]) change nothing that is
    modelled. *)
Definition uploadPart (renameFile : bool) (uploadDir : string)
    (hdr : FileHeader) (uploadedFiles : list UploadedFile)
  : M (list UploadedFile * option error) :=
  match Open hdr with
  | inl err => mret ([], Some err)
  | inr infile =>
      let '(buff, _, err, infile) := Read infile 512 in
      match err with
      | Some err => mret ([], Some err)
      | None =>
          t ← getTools;
          let fileType := DetectContentType buff in
          let allowed := isAllowed (AllowedFileTypes t) fileType in
          if negb allowed then
            mret ([], Some (errorsNew "uploaded file type is not permitted"))
          else
            let '(err, infile) := Seek0 infile in
            match err with
            | Some err => mret ([], Some err)
            | None =>
                newFileName ←
                  (if renameFile then
                     s ← RandomString 25;
                     mret (s +:+ filepath_Ext (Filename hdr))
                   else mret (Filename hdr));
                created ← os_Create (filepath_Join uploadDir newFileName);
                match created with
                | inl err => mret ([], Some err)
                | inr outfile =>
                    '(fileSize, err) ← io_Copy outfile infile;
                    match err with
                    | Some err => mret ([], Some err)
                    | None =>
                        mret (uploadedFiles ++
                                [mkUploadedFile newFileName (Filename hdr) fileSize],
                              None)
                    end
                end
            end
      end
  end.

(** [for _, hdr := range fHEaders] *)
Fixpoint rangeHeaders (renameFile : bool) (uploadDir : string)
    (fHEaders : list FileHeader) (uploadedFiles : list UploadedFile)
  : M (flow (list UploadedFile * option error) (list UploadedFile)) :=
  match fHEaders with
  | [] => mret (Next uploadedFiles)
  | hdr :: rest =>
      '(uploadedFiles, err) ← uploadPart renameFile uploadDir hdr uploadedFiles;
      match err with
      | Some err => mret (Return (uploadedFiles, Some err))
      | None => rangeHeaders renameFile uploadDir rest uploadedFiles
      end
  end.

(** [for _, fHEaders := range r.MultipartForm.File] *)
Fixpoint rangeForm (renameFile : bool) (uploadDir : string)
    (form : Form) (uploadedFiles : list UploadedFile)
  : M (flow (list UploadedFile * option error) (list UploadedFile)) :=
  match form with
  | [] => mret (Next uploadedFiles)
  | (_, fHEaders) :: rest =>
      fl ← rangeHeaders renameFile uploadDir fHEaders uploadedFiles;
      match fl with
      | Return res => mret (Return res)
      | Next uploadedFiles => rangeForm renameFile uploadDir rest uploadedFiles
      end
  end.

Definition UploadFiles (r : Request) (uploadDir : string) (rename : list bool)
  : M (list UploadedFile * option error) :=
  let renameFile := match rename with b :: _ => b | [] => true end in
  let uploadedFiles : list UploadedFile := [] in
  t ← getTools;
  (if MaxFileSize t =? 0 then
     setTools (mkTools (1024 * 1024 * 1024) (AllowedFileTypes t)
                       (MaxJSONSize t) (AllowUnknownFields t))
   else mret tt);;
  err ← CreateDirIfNotExist uploadDir;
  match err with
  | Some err => mret ([], Some err)
  | None =>
      t ← getTools;
      match ParseMultipartForm r (MaxFileSize t) with
      | inl _ => mret ([], Some (errorsNew "uploaded file is too big"))
      | inr form =>
          fl ← rangeForm renameFile uploadDir form uploadedFiles;
          match fl with
          | Return res => mret res
          | Next uploadedFiles => mret (uploadedFiles, None)
          end
      end
  end.

(** [files[0]] on an empty slice is a run-time panic. *)
Definition UploadOneFile (r : Request) (uploadDir : string) (rename : list bool)
  : M (option UploadedFile * option error) :=
  let renameFile := match rename with b :: _ => b | [] => true end in
  '(files, err) ← UploadFiles r uploadDir [renameFile];
  match err with
  | Some err => mret (None, Some err)
  | None =>
      match files with
      | f :: _ => mret (Some f, None)
      | [] => panic "index out of range [0] with length 0"
      end
  end.
End Upload.

(** ** [ReadJSON] *)

(** An [io.Reader] over a request body: the bytes still to come and the
    error that [Read] returns once they are used up. *)
Record Reader := mkReader {
  pending : list ascii;
  final : error
}.

(** [http.MaxBytesReader(w, r.Body, n)]: at most [n] bytes pass (none for
    a negative [n]); a longer body ends in the [http: request body too
    large] error instead of [io.EOF]. *)
Definition MaxBytesReader (body : list ascii) (n : Z) : Reader :=
  let n := Z.max n 0 in
  if Z.of_nat (length body) <=? n then mkReader body io_EOF
  else mkReader (take (Z.to_nat n) body)
                (otherError "http: request body too large").

(** [encoding/json]'s streaming decoder, as an interface: [GoValue] is
    what the pointer given to [Decode] points to, [emptyStruct] is
    [struct{}{}], and [Decode] returns the value stored through the
    pointer, the error and the decoder after the call. *)
Class JSONLib := {
  GoValue : Type;
  emptyStruct : GoValue;
  Decoder : Type;
  NewDecoder : Reader → Decoder;
  DisallowUnknownFields : Decoder → Decoder;
  Decode : Decoder → GoValue → GoValue * option error * Decoder
}.

Definition errnoText (code : errno) : string :=
  match code with
  | ENOENT => "no such file or directory"
  | ENOTDIR => "not a directory"
  | EEXIST => "file exists"
  | EISDIR => "is a directory"
  | EIO => "input/output error"
  end.

(** [strings.TrimPrefix] *)
Definition TrimPrefix (s p : string) : string :=
  if String.prefix p s then
    String.substring (String.length p) (String.length s - String.length p) s
  else s.

Section JSON.
Context `{GoLib} `{JSONLib}.

(** [err.Error()] *)
Definition Error (err : error) : string :=
  match err with
  | errorsNew text => text
  | fmtErrorf format args => Sprintf format args
  | io_EOF => "EOF"
  | io_ErrUnexpectedEOF => "unexpected EOF"
  | os_PathError op path code => op +:+ " " +:+ path +:+ ": " +:+ errnoText code
  | json_SyntaxError msg _ => msg
  | json_UnmarshalTypeError v ty st fld _ =>
      if negb (String.eqb st "") || negb (String.eqb fld "") then
        "json: cannot unmarshal " +:+ v +:+ " into Go struct field "
          +:+ st +:+ "." +:+ fld +:+ " of type " +:+ ty
      else "json: cannot unmarshal " +:+ v +:+ " into Go value of type " +:+ ty
  | json_InvalidUnmarshalError text => text
  | otherError text => text
  end.

(** The [switch] that rewrites the error of the first [Decode]. *)
Definition decodeError (maxBytes : Z) (err : error) : error :=
  match err with
  | json_SyntaxError _ Offset =>
      fmtErrorf "body contains badly formed JSON at character %d" [argInt Offset]
  | io_ErrUnexpectedEOF => errorsNew "body contains badly formed JSON"
  | json_UnmarshalTypeError _ _ _ Field Offset =>
      if negb (String.eqb Field "") then
        fmtErrorf "body contains incorrect JSON type for field %q" [argString Field]
      else
        fmtErrorf "body contains incorrect JSON type at characted %d" [argInt Offset]
  | io_EOF => errorsNew "body must not be empty"
  | _ =>
      if String.prefix "json: unknown field" (Error err) then
        let fieldName := TrimPrefix (Error err) "json: unknown field" in
        fmtErrorf "body contains unknown key %s" [argString fieldName]
      else if String.eqb (Error err) "http: request body too large" then
        fmtErrorf "body must not be larged than %d bytes" [argInt maxBytes]
      else
        match err with
        | json_InvalidUnmarshalError _ =>
            fmtErrorf "error unmarshaling JSON %s" [argString (Error err)]
        | _ => err
        end
  end.

(** [err != io.EOF] *)
Definition isEOF (err : option error) : bool :=
  match err with
  | Some io_EOF => true
  | _ => false
  end.

(** [ReadJSON(w, r, data)]: the value left behind the [data] pointer and
    the error. *)
Definition ReadJSON (r : Request) (data : GoValue) : M (GoValue * option error) :=
  t ← getTools;
  let maxBytes := if negb (MaxJSONSize t =? 0) then MaxJSONSize t else 1024 * 1024 in
  let body := MaxBytesReader (Body r) maxBytes in
  let dec := NewDecoder body in
  let dec := if negb (AllowUnknownFields t) then DisallowUnknownFields dec else dec in
  let '(data, err, dec) := Decode dec data in
  match err with
  | Some err => mret (data, Some (decodeError maxBytes err))
  | None =>
      let '(_, err, _) := Decode dec emptyStruct in
      if negb (isEOF err) then
        mret (data, Some (errorsNew "body must contain only one JSON value"))
      else mret (data, None)
  end.
End JSON.

(** ** A reference standard library

    An executable implementation of the [GoLib] interface, used to run the
    model on concrete requests.  The sniffer knows a few entries of the
    table of [http.DetectContentType]; case folding is the ASCII one. *)

Definition startsWith (p s : list ascii) : bool :=
  bool_decide (take (length p) s = p).

Definition pngMagic : list ascii :=
  map ascii_of_nat [137; 80; 78; 71; 13; 10; 26; 10]%nat.

Definition jpegMagic : list ascii := map ascii_of_nat [255; 216; 255]%nat.

(** The bytes that make [DetectContentType] give up on text. *)
Definition isBinaryByte (c : ascii) : bool :=
  let n := nat_of_ascii c in
  (n <=? 8)%nat || (n =? 11)%nat || ((14 <=? n)%nat && (n <=? 26)%nat)
  || ((28 <=? n)%nat && (n <=? 31)%nat).

Definition refDetectContentType (data : list ascii) : string :=
  let data := take 512 data in
  if startsWith pngMagic data then "image/png"
  else if startsWith jpegMagic data then "image/jpeg"
  else if startsWith (bytes_of "GIF87a") data || startsWith (bytes_of "GIF89a") data
  then "image/gif"
  else if startsWith (bytes_of "%PDF-") data then "application/pdf"
  else if existsb isBinaryByte data then "application/octet-stream"
  else "text/plain; charset=utf-8".

Definition refEqualFold (a b : string) : bool :=
  String.eqb (asciiLower a) (asciiLower b).

Definition decimal (z : Z) : string := NilEmpty.string_of_int (Z.to_int z).

(** The double quote. *)
Definition quote : ascii := ascii_of_nat 34.

(** The verbs [%d], [%s] and [%q] (quoting without escapes). *)
Definition formatArg (verb : ascii) (a : fmtArg) : list ascii :=
  match a with
  | argInt z => bytes_of (decimal z)
  | argString s =>
      if Ascii.eqb verb "q" then quote :: bytes_of s ++ [quote]
      else bytes_of s
  end.

Fixpoint sprintf (format : list ascii) (args : list fmtArg) : list ascii :=
  match format with
  | [] => []
  | c :: rest =>
      if Ascii.eqb c "%" then
        match rest, args with
        | verb :: rest', a :: args' => formatArg verb a ++ sprintf rest' args'
        | _, _ => c :: sprintf rest args
        end
      else c :: sprintf rest args
  end.

Definition refSprintf (format : string) (args : list fmtArg) : string :=
  string_of (sprintf (bytes_of format) args).

Definition refLib : GoLib := {|
  DetectContentType := refDetectContentType;
  EqualFold := refEqualFold;
  ToLower := asciiLower;
  Sprintf := refSprintf;
  ToLower_ascii := λ s _, eq_refl
|}.

(** ** Sample worlds and requests *)

Definition zeroTools : Tools := mkTools 0 [] 0 false.

(** An entropy source that counts up from a 63-bit prime. *)
Definition countingReader : Rand := mkRand (λ i, 4611686018427388039 + Z.of_nat i) 0.

(** A disk with a working directory and, in it, [uploads]. *)
Definition sampleDisk : gmap string node :=
  <["uploads"%string := Dir]> (<["."%string := Dir]> ∅).

Definition sampleWorld (t : Tools) : World := mkWorld t sampleDisk countingReader.

Definition healthy (data : list ascii) : File := mkFile data 0 None None None.

Definition part (name : string) (data : list ascii) : FileHeader :=
  mkFileHeader name (inr (healthy data)).

Definition formRequest (form : Form) : Request :=
  mkRequest (λ _, inr form) [].

Definition pngBytes : list ascii := pngMagic ++ bytes_of "....IHDR".

Definition jpegBytes : list ascii := jpegMagic ++ bytes_of "..JFIF..".

(** A form without file parts. *)
Definition noFiles : Request := formRequest [].

(** One PNG part, as in the package's upload tests. *)
Definition onePNG : Request :=
  formRequest [("file"%string, [part "./testdata/img.png" pngBytes])].

(** A JPEG part followed by a PNG part. *)
Definition jpegThenPNG : Request :=
  formRequest [("file"%string, [part "a.jpg" jpegBytes; part "b.png" pngBytes])].

(** A JPEG part followed by a part without bytes and one more JPEG part. *)
Definition withEmptyPart : Request :=
  formRequest [("file"%string, [part "a.jpg" jpegBytes; part "empty.txt" []]);
               ("more"%string, [part "c.jpg" jpegBytes])].


Definition jpegOnly : Tools := mkTools 0 ["image/jpeg"%string] 0 false.

(** The disk of the package's tests, where [./testdata/uploads] exists. *)
Definition testDisk : gmap string node :=
  <["testdata/uploads"%string := Dir]>
    (<["testdata"%string := Dir]> (<["."%string := Dir]> ∅)).

(** The rows of the table of [TestTools_UploadFiles]: the allowed types,
    the [rename] flag, and whether an error is expected. *)
Definition uploadTests : list (list string * bool * bool) :=
  [ (["image/jpeg"; "image/png"], false, false);
    (["image/jpeg"; "image/png"], true, false);
    (["image/jpeg"], false, true) ]%string.

(** One row of the table run in the model, with the checks of the test:
    the error is as expected and, without an error, the file named by the
    first manifest entry exists in the upload directory.  The request has
    one PNG part, of which the form parser hands on the base name. *)
Definition uploadTestPasses (row : list string * bool * bool) : bool :=
  let '(allowedTypes, renameFile, errorExpected) := row in
  let res :=
    UploadFiles (H:=refLib) (formRequest [("file"%string, [part "img.png" pngBytes])])
                "./testdata/uploads/" [renameFile]
                (mkWorld (mkTools 0 allowedTypes 0 false) testDisk countingReader) in
  match res.1 with
  | Returned (_, Some _) => errorExpected
  | Returned (f :: _, None) =>
      negb errorExpected &&
      match disk res.2 !! ("testdata/uploads/" +:+ NewFileName f) with
      | Some (Regular _) => true
      | _ => false
      end
  | _ => false
  end.

(** [TestTools_CreateDirIfNotExist]: two calls in a row, no error. *)
Definition createDirTestPasses : bool :=
  let w := mkWorld zeroTools testDisk countingReader in
  let first := CreateDirIfNotExist "./testdata/myDir" w in
  let second := CreateDirIfNotExist "./testdata/myDir" first.2 in
  match first.1, second.1 with
  | Returned None, Returned None =>
      match disk second.2 !! "testdata/myDir"%string with
      | Some Dir => true
      | _ => false
      end
  | _, _ => false
  end.

(** ** A reference [encoding/json]

    An executable implementation of the [JSONLib] interface: a scanner for
    the JSON grammar, the type check of [Unmarshal] against the shape of
    the target, and the decoder's handling of the stream between values.
    Every node of a scanned value carries the offset that an
    [UnmarshalTypeError] reports for it. *)

#[local] Unset Elimination Schemes.
Inductive json :=
| JNull (off : Z)
| JBool (off : Z) (b : bool)
| JNumber (off : Z) (lit : string)
| JString (off : Z) (s : string)
| JArray (off : Z) (items : list json)
| JObject (off : Z) (members : list (string * json)).
#[local] Set Elimination Schemes.

(** The result of a scanner: a value and the bytes after it, the bytes
    from the first one that cannot go on the value, or nothing because
    the bytes ran out. *)
Inductive scanned (A : Type) :=
| Found (a : A) (rest : list ascii)
| BadByte (rest : list ascii)
| Starved.
Arguments Found {A} a rest.
Arguments BadByte {A} rest.
Arguments Starved {A}.

Definition andThen {A B} (r : scanned A) (k : A → list ascii → scanned B) : scanned B :=
  match r with
  | Found a rest => k a rest
  | BadByte rest => BadByte rest
  | Starved => Starved
  end.

Definition isSpace (c : ascii) : bool :=
  Ascii.eqb c " " || Ascii.eqb c "009" || Ascii.eqb c "013" || Ascii.eqb c "010".

Fixpoint skipSpace (s : list ascii) : list ascii :=
  match s with
  | c :: rest => if isSpace c then skipSpace rest else s
  | [] => []
  end.

Definition isHex (c : ascii) : bool :=
  isDigit c || (Ascii.leb "a" c && Ascii.leb c "f") || (Ascii.leb "A" c && Ascii.leb c "F").

Definition isEscape (c : ascii) : bool :=
  existsb (Ascii.eqb c) (quote :: bytes_of "\/bfnrt").

(** A string literal after its opening quote; escapes are checked and
    kept as they are written. *)
Fixpoint scanString (acc : list ascii) (s : list ascii) : scanned string :=
  match s with
  | [] => Starved
  | c :: rest =>
      if Ascii.eqb c quote then Found (string_of (rev acc)) rest
      else if Ascii.eqb c "\" then
        match rest with
        | [] => Starved
        | e :: rest' =>
            if isEscape e then scanString (e :: c :: acc) rest'
            else if Ascii.eqb e "u" then
              match rest' with
              | h1 :: h2 :: h3 :: h4 :: rest'' =>
                  if negb (isHex h1) then BadByte rest'
                  else if negb (isHex h2) then BadByte (h2 :: h3 :: h4 :: rest'')
                  else if negb (isHex h3) then BadByte (h3 :: h4 :: rest'')
                  else if negb (isHex h4) then BadByte (h4 :: rest'')
                  else scanString (h4 :: h3 :: h2 :: h1 :: e :: c :: acc) rest''
              | _ => Starved
              end
            else BadByte rest
        end
      else if Ascii.ltb c " " then BadByte s
      else scanString (c :: acc) rest
  end.

Fixpoint spanDigits (s : list ascii) : list ascii * list ascii :=
  match s with
  | c :: rest =>
      if isDigit c then let '(d, rest') := spanDigits rest in (c :: d, rest')
      else ([], s)
  | [] => ([], [])
  end.

Definition scanDigits (s : list ascii) : scanned (list ascii) :=
  match s with
  | [] => Starved
  | c :: _ => if isDigit c then let '(d, rest) := spanDigits s in Found d rest
              else BadByte s
  end.

Definition scanInt (s : list ascii) : scanned (list ascii) :=
  match s with
  | [] => Starved
  | c :: rest =>
      if Ascii.eqb c "0" then Found [c] rest
      else if isDigit c then let '(d, rest') := spanDigits rest in Found (c :: d) rest'
      else BadByte s
  end.

Definition scanFrac (s : list ascii) : scanned (list ascii) :=
  match s with
  | c :: rest =>
      if Ascii.eqb c "." then andThen (scanDigits rest) (λ d r, Found (c :: d) r)
      else Found [] s
  | [] => Found [] []
  end.

Definition scanExp (s : list ascii) : scanned (list ascii) :=
  match s with
  | c :: rest =>
      if Ascii.eqb c "e" || Ascii.eqb c "E" then
        let '(sign, rest') :=
          match rest with
          | x :: r => if Ascii.eqb x "+" || Ascii.eqb x "-" then ([x], r) else ([], rest)
          | [] => ([], [])
          end in
        andThen (scanDigits rest') (λ d r, Found (c :: sign ++ d) r)
      else Found [] s
  | [] => Found [] []
  end.

Definition scanNumber (s : list ascii) : scanned string :=
  let '(sign, s1) :=
    match s with
    | c :: rest => if Ascii.eqb c "-" then ([c], rest) else ([], s)
    | [] => ([], [])
    end in
  andThen (scanInt s1) (λ i r1,
  andThen (scanFrac r1) (λ f r2,
  andThen (scanExp r2) (λ e r3,
  Found (string_of (sign ++ i ++ f ++ e)) r3))).

(** The rest of a literal name. *)
Fixpoint expect (lit : list ascii) (s : list ascii) : scanned unit :=
  match lit with
  | [] => Found tt s
  | l :: lit' =>
      match s with
      | [] => Starved
      | c :: rest => if Ascii.eqb l c then expect lit' rest else BadByte s
      end
  end.

(** A value, the members of an object after its opening brace and the
    items of an array after its opening bracket.  [base] is the number of
    bytes that the current [Decode] started with, so that
    [base - length s] is the offset of [s]. *)
Fixpoint scanValue (fuel : nat) (base : nat) (s : list ascii) : scanned json :=
  match fuel with
  | O => Starved
  | S fuel =>
      let at_ (rest : list ascii) : Z := Z.of_nat (base - length rest) in
      match skipSpace s with
      | [] => Starved
      | c :: rest =>
          if Ascii.eqb c "{" then
            match skipSpace rest with
            | [] => Starved
            | c' :: rest' =>
                if Ascii.eqb c' "}" then Found (JObject (at_ rest) []) rest'
                else scanMembers fuel base (at_ rest) [] rest
            end
          else if Ascii.eqb c "[" then
            match skipSpace rest with
            | [] => Starved
            | c' :: rest' =>
                if Ascii.eqb c' "]" then Found (JArray (at_ rest) []) rest'
                else scanItems fuel base (at_ rest) [] rest
            end
          else if Ascii.eqb c quote then
            andThen (scanString [] rest) (λ str r, Found (JString (at_ r) str) r)
          else if Ascii.eqb c "t" then
            andThen (expect (bytes_of "rue") rest) (λ _ r, Found (JBool (at_ r) true) r)
          else if Ascii.eqb c "f" then
            andThen (expect (bytes_of "alse") rest) (λ _ r, Found (JBool (at_ r) false) r)
          else if Ascii.eqb c "n" then
            andThen (expect (bytes_of "ull") rest) (λ _ r, Found (JNull (at_ r)) r)
          else if Ascii.eqb c "-" || isDigit c then
            andThen (scanNumber (c :: rest)) (λ lit r, Found (JNumber (at_ r) lit) r)
          else BadByte (c :: rest)
      end
  end
with scanMembers (fuel : nat) (base : nat) (off : Z) (acc : list (string * json))
       (s : list ascii) : scanned json :=
  match fuel with
  | O => Starved
  | S fuel =>
      match skipSpace s with
      | [] => Starved
      | c :: rest =>
          if negb (Ascii.eqb c quote) then BadByte (c :: rest)
          else
            andThen (scanString [] rest) (λ key r1,
              match skipSpace r1 with
              | [] => Starved
              | c1 :: r2 =>
                  if negb (Ascii.eqb c1 ":") then BadByte (c1 :: r2)
                  else
                    andThen (scanValue fuel base r2) (λ v r3,
                      match skipSpace r3 with
                      | [] => Starved
                      | c3 :: r4 =>
                          if Ascii.eqb c3 "," then
                            scanMembers fuel base off ((key, v) :: acc) r4
                          else if Ascii.eqb c3 "}" then
                            Found (JObject off (rev ((key, v) :: acc))) r4
                          else BadByte (c3 :: r4)
                      end)
              end)
      end
  end
with scanItems (fuel : nat) (base : nat) (off : Z) (acc : list json)
       (s : list ascii) : scanned json :=
  match fuel with
  | O => Starved
  | S fuel =>
      andThen (scanValue fuel base s) (λ v r1,
        match skipSpace r1 with
        | [] => Starved
        | c :: r2 =>
            if Ascii.eqb c "," then scanItems fuel base off (v :: acc) r2
            else if Ascii.eqb c "]" then Found (JArray off (rev (v :: acc))) r2
            else BadByte (c :: r2)
        end)
  end.

(** The shape of a Go value that [Unmarshal] writes to. *)
#[local] Unset Elimination Schemes.
Inductive shape :=
| SBool
| SNumber
| SString
| SAny
| SSlice (elem : shape)
| SStruct (fields : list (string * shape)).
#[local] Set Elimination Schemes.

Fixpoint typeName (sh : shape) : string :=
  match sh with
  | SBool => "bool"
  | SNumber => "float64"
  | SString => "string"
  | SAny => "interface {}"
  | SSlice elem => "[]" +:+ typeName elem
  | SStruct _ => "struct"
  end.

(** A key selects the field of that name, or else a field whose name
    differs in case only. *)
Definition lookupField (key : string) (fields : list (string * shape)) : option shape :=
  match find (λ kv, String.eqb (fst kv) key) fields with
  | Some kv => Some (snd kv)
  | None => snd <$> find (λ kv, refEqualFold (fst kv) key) fields
  end.

Definition pathTo (field key : string) : string :=
  if String.eqb field "" then key else field +:+ "." +:+ key.

Definition mismatch (value : string) (sh : shape) (field : string) (off : Z) : error :=
  json_UnmarshalTypeError value (typeName sh)
    (if String.eqb field "" then "" else "struct") field off.

Definition unknownField (key : string) : error :=
  otherError ("json: unknown field " +:+ string_of (quote :: bytes_of key ++ [quote])).

(** The errors that [Unmarshal] saves, in the order of the input; it
    returns the first.  [null] goes into everything. *)
Fixpoint unmarshal (strict : bool) (field : string) (sh : shape) (v : json)
  : list error :=
  match v with
  | JNull _ => []
  | JBool off _ =>
      match sh with
      | SBool | SAny => []
      | _ => [mismatch "bool" sh field off]
      end
  | JNumber off _ =>
      match sh with
      | SNumber | SAny => []
      | _ => [mismatch "number" sh field off]
      end
  | JString off _ =>
      match sh with
      | SString | SAny => []
      | _ => [mismatch "string" sh field off]
      end
  | JArray off items =>
      match sh with
      | SSlice elem => flat_map (unmarshal strict field elem) items
      | SAny => []
      | _ => [mismatch "array" sh field off]
      end
  | JObject off members =>
      match sh with
      | SStruct fields =>
          flat_map
            (λ kv,
               match lookupField (fst kv) fields with
               | Some sh' => unmarshal strict (pathTo field (fst kv)) sh' (snd kv)
               | None => if strict then [unknownField (fst kv)] else []
               end)
            members
      | SAny => []
      | _ => [mismatch "object" sh field off]
      end
  end.

(** What a pointer given to [Decode] points to: a value of some shape and
    the JSON value that was last decoded into it. *)
Record target := mkTarget {
  shapeOf : shape;
  held : option json
}.

(** [json.Decoder]: the bytes not yet consumed, the error the reader ends
    with, the number of bytes consumed, the [DisallowUnknownFields] flag
    and the error that the decoder keeps once reading or scanning failed. *)
Record refDecoder := mkRefDecoder {
  input : list ascii;
  atEnd : error;
  consumed : Z;
  strict : bool;
  sticky : option error
}.

Definition isScalar (v : json) : bool :=
  match v with
  | JArray _ _ | JObject _ _ => false
  | _ => true
  end.

Definition fails (d : refDecoder) (v : target) (e : error)
  : target * option error * refDecoder :=
  (v, Some e,
   mkRefDecoder [] (atEnd d) (consumed d + Z.of_nat (length (input d)))
                (strict d) (Some e)).

(** [Decode]: the end of an object or array is known at its last byte; a
    number, string or literal at the top level is complete when a further
    byte or [io.EOF] follows. *)
Definition refDecode (d : refDecoder) (v : target)
  : target * option error * refDecoder :=
  match sticky d with
  | Some e => (v, Some e, d)
  | None =>
      let data := input d in
      match skipSpace data with
      | [] => fails d v (atEnd d)
      | _ =>
          match scanValue (S (length data)) (length data) data with
          | Found j rest =>
              if isScalar j && bool_decide (rest = []) && negb (isEOF (Some (atEnd d)))
              then fails d v (atEnd d)
              else
                (mkTarget (shapeOf v) (Some j),
                 head (unmarshal (strict d) "" (shapeOf v) j),
                 mkRefDecoder rest (atEnd d)
                              (consumed d + Z.of_nat (length data - length rest))
                              (strict d) None)
          | BadByte rest =>
              fails d v (json_SyntaxError "invalid character"
                           (consumed d + Z.of_nat (length data - length rest) + 1))
          | Starved =>
              fails d v (if isEOF (Some (atEnd d)) then io_ErrUnexpectedEOF else atEnd d)
          end
      end
  end.

Definition refJSON : JSONLib := {|
  GoValue := target;
  emptyStruct := mkTarget (SStruct []) None;
  Decoder := refDecoder;
  NewDecoder := λ rd, mkRefDecoder (pending rd) (final rd) 0 false None;
  DisallowUnknownFields := λ d,
    mkRefDecoder (input d) (atEnd d) (consumed d) true (sticky d);
  Decode := refDecode
|}.

(** The target of the package's JSON tests: a struct with one string
    field, [foo]. *)
Definition fooTarget : target := mkTarget (SStruct [("foo"%string, SString)]) None.

Definition bodyRequest (body : string) : Request :=
  mkRequest (λ _, inl (otherError "request Content-Type isn't multipart/form-data"))
            (bytes_of body).

(** The string [{"foo":"bar"}] and its like, written with [q] for the
    double quote. *)
Definition unq (s : string) : string :=
  string_of (map (λ c, if Ascii.eqb c "q" then quote else c) (bytes_of s)).

(** ** Notions used to state the properties *)

(** The parts of a form in the order in which the two loops visit them. *)
Definition partsOf (form : Form) : list FileHeader := concat (map snd form).

(** The world after the first statement of [UploadFiles], which stores
    the default of 1 GiB in a receiver whose [MaxFileSize] is zero. *)
Definition withDefaultMaxFileSize (w : World) : World :=
  if MaxFileSize (tools w) =? 0 then
    mkWorld (mkTools (1024 * 1024 * 1024) (AllowedFileTypes (tools w))
                     (MaxJSONSize (tools w)) (AllowUnknownFields (tools w)))
            (disk w) (entropy w)
  else w.

(** The [rename] flag that the variadic parameter stands for. *)
Definition renameFlag (rename : list bool) : bool :=
  match rename with b :: _ => b | [] => true end.

(** A part that opens and has no bytes. *)
Definition zeroByte (hdr : FileHeader) : Prop :=
  match Open hdr with
  | inr f => content f = []
  | inl _ => False
  end.

(** Nothing is removed from the disk and no directory becomes a file or
    the other way round; the receiver is the same. *)
Definition isDir (n : node) : bool :=
  match n with
  | Dir => true
  | Regular _ => false
  end.

Definition extends (w w' : World) : Prop :=
  tools w' = tools w ∧
  ∀ p n, disk w !! p = Some n → ∃ n', disk w' !! p = Some n' ∧ isDir n' = isDir n.

Section Sniff.
Context `{GoLib}.

(** The MIME type that the closure of [UploadFiles] computes for a part,
    when the part opens and its first [Read] succeeds: the type of the
    whole 512-byte buffer. *)
Definition sniffedType (hdr : FileHeader) : option string :=
  match Open hdr with
  | inl _ => None
  | inr f =>
      match Read f 512 with
      | (buff, _, None, _) => Some (DetectContentType buff)
      | _ => None
      end
  end.


(** What the closure leaves behind for a part that it stored as the
    manifest entry [f]: the entry carries the part's name and size, the
    type of the part passed the allow-list, and a regular file stands at
    the joined path in the world [w']. *)
Definition stored (t : Tools) (renameFile : bool) (uploadDir : string) (w' : World)
    (hdr : FileHeader) (f : UploadedFile) : Prop :=
  OriginalFileName f = Filename hdr ∧
  (renameFile = false → NewFileName f = Filename hdr) ∧
  (∃ infile ty,
     Open hdr = inr infile ∧ content infile ≠ [] ∧
     FileSize f = Z.of_nat (length (content infile)) ∧
     sniffedType hdr = Some ty ∧ isAllowed (AllowedFileTypes t) ty = true) ∧
  (∃ data,
     disk w' !! filepath_Clean (filepath_Join uploadDir (NewFileName f))
       = Some (Regular data)).

(** A part on which the closure fails whatever the manifest and the disk
    are, the world untouched. *)
Definition doomed (renameFile : bool) (uploadDir : string) (t : Tools)
    (hdr : FileHeader) : Prop :=
  ∀ files w, tools w = t →
    ∃ e, uploadPart renameFile uploadDir hdr files w = (Returned ([], Some e), w).
End Sniff.

Definition notPermitted : error := errorsNew "uploaded file type is not permitted".

Definition multipleValues : error := errorsNew "body must contain only one JSON value".

Section BodyDecoder.
Context `{JSONLib}.

(** The decoder that [ReadJSON] sets up for the body of a request. *)
Definition bodyDecoder (t : Tools) (r : Request) : Decoder :=
  let maxBytes := if negb (MaxJSONSize t =? 0) then MaxJSONSize t else 1024 * 1024 in
  let dec := NewDecoder (MaxBytesReader (Body r) maxBytes) in
  if negb (AllowUnknownFields t) then DisallowUnknownFields dec else dec.
End BodyDecoder.

(** The rows of the table of [TestTools_ReadJSON]: body (with [q] for the
    double quote), [MaxJSONSize], [AllowUnknownFields], and whether an
    error is expected. *)
Definition jsonTests : list (string * Z * bool * bool) :=
  [ ("{qfooq:qbarq}", 1024, false, false);
    ("{qfooq:}", 1024, false, true);
    ("{qfooq: 1}", 1024, false, true);
    ("{qfooq: qbarq}{qalphaq:qbetaq}", 1024, false, true);
    ("", 1024, false, true);
    ("{qfooq:1q}", 1024, false, true);
    ("{qfoooq:q1q}", 1024, false, true);
    ("{qfoooq:q1q}", 1024, true, false);
    ("{booo:q1q}", 1024, true, true);
    ("{qfooq:qbarq}", 5, true, true);
    ("hello", 1024, true, true) ]%string.

(** One row of the table run in the model. *)
Definition jsonTestPasses (row : string * Z * bool * bool) : bool :=
  let '(body, maxSize, allowUnknown, errorExpected) := row in
  match (ReadJSON (H:=refLib) (H0:=refJSON) (bodyRequest (unq body)) fooTarget
                  (sampleWorld (mkTools 0 [] maxSize allowUnknown))).1 with
  | Returned (_, Some _) => errorExpected
  | Returned (_, None) => negb errorExpected
  | Panicked _ => false
  end.

(** ** Notions for the further properties *)

(** An index into the alphabet that shares no factor with its length. *)
Definition coprimeIndex (i : nat) : bool := Z.gcd (Z.of_nat i) 63 =? 1.

(** The characters of the alphabet at such indexes. *)
Definition reachable : list ascii :=
  map snd (filter (λ ic, coprimeIndex (fst ic) = true)
                  (zip (seq 0 63) (runes randomStringSource))).

(** An entropy source that hands out the prime 67 over and over. *)
Definition primeReader : Rand := mkRand (λ _, 67) 0.

(** The bytes of a part (none when it does not open). *)
Definition partBytes (hdr : FileHeader) : list ascii :=
  match Open hdr with
  | inr f => content f
  | inl _ => []
  end.

(** The name under which the file of a manifest entry is on the disk. *)
Definition pathOf (uploadDir : string) (f : UploadedFile) : string :=
  filepath_Clean (filepath_Join uploadDir (NewFileName f)).

(** The disk after the bytes of the parts were written, one after the
    other, to the paths of their entries. *)
Definition written (uploadDir : string) (d : gmap string node)
    (files : list UploadedFile) (parts : list FileHeader) : gmap string node :=
  foldl (λ d fp, <[pathOf uploadDir (fst fp) := Regular (partBytes (snd fp))]> d)
        d (zip files parts).

(** A name made by [UploadFiles] when it renames: 25 characters of the
    alphabet and the extension. *)
Definition randomName (name ext : string) : Prop :=
  ∃ s, name = s +:+ ext ∧ String.length s = 25%nat ∧
       Forall (λ c, c ∈ runes randomStringSource) (bytes_of s).

(** The manifest entry of a part. *)
Definition entryOf (renameFile : bool) (hdr : FileHeader) (f : UploadedFile) : Prop :=
  OriginalFileName f = Filename hdr ∧
  FileSize f = Z.of_nat (length (partBytes hdr)) ∧
  partBytes hdr ≠ [] ∧
  if renameFile then randomName (NewFileName f) (filepath_Ext (Filename hdr))
  else NewFileName f = Filename hdr.

(** A string without a separator, and a path element that is a name:
    not empty, not [.] or [..], and without a separator. *)
Definition slashFree (s : string) : bool :=
  forallb (λ c, negb (Ascii.eqb c "/")) (bytes_of s).

Definition isName (e : string) : bool :=
  negb (String.eqb e "") && negb (String.eqb e ".") && negb (String.eqb e "..") &&
  slashFree e.

(** The elements of a cleaned path: [..] elements, none of them in a
    rooted path, and then names. *)
Definition cleanForm (rooted : bool) (elems : list string) : Prop :=
  ∃ k names,
    elems = repeat ".."%string k ++ names ∧ (rooted = true → k = 0%nat) ∧
    Forall (λ e, isName e = true) names.

(** The errors of [encoding/json] and [io] that [ReadJSON] tells apart. *)
Definition typedDecoderError (e : error) : bool :=
  match e with
  | json_SyntaxError _ _ | json_UnmarshalTypeError _ _ _ _ _
  | json_InvalidUnmarshalError _ | io_EOF | io_ErrUnexpectedEOF => true
  | _ => false
  end.

(** The sample disk with a regular file in [uploads]. *)
Definition fileDisk : gmap string node :=
  <["uploads/a.txt"%string := Regular pngBytes]> sampleDisk.

(** ** Responses: [WriteJSON], [ErrorJSON] and [PushJSONToRemote] *)

(** [http.Header] *)
Abbreviation http_Header := (gmap string (list string)) (only parsing).

(** [net/textproto]: the bytes of a header key that can be made
    canonical, and [CanonicalMIMEHeaderKey]: a key with another byte is
    left as it is; otherwise the first letter and every letter after a
    hyphen become upper case, the other letters lower case. *)
Definition validHeaderFieldByte (c : ascii) : bool :=
  isUpper c || isLower c || isDigit c ||
  existsb (Ascii.eqb c) (bytes_of "!#$%&'*+-.^_`|~").

Definition upperByte (c : ascii) : ascii :=
  if isLower c then ascii_of_nat (nat_of_ascii c - 32) else c.

Fixpoint canonicalBytes (upper : bool) (a : list ascii) : list ascii :=
  match a with
  | [] => []
  | c :: rest =>
      (if upper then upperByte c else lowerByte c)
        :: canonicalBytes (Ascii.eqb c "-") rest
  end.

Definition CanonicalMIMEHeaderKey (s : string) : string :=
  if forallb validHeaderFieldByte (bytes_of s)
  then string_of (canonicalBytes true (bytes_of s))
  else s.

(** [h.Set(key, value)] *)
Definition Header_Set (key value : string) (h : http_Header) : http_Header :=
  <[CanonicalMIMEHeaderKey key := [value]]> h.

(** An [http.ResponseWriter], seen from the handler: the map that
    [w.Header()] returns, the calls of [WriteHeader] (with the header map
    as it was at the call) and of [Write] so far, oldest first, and the
    error that [Write] returns. *)
Inductive call :=
| WriteHeaderCall (statusCode : Z) (sent : http_Header)
| WriteCall (data : list ascii).

Record ResponseWriter := mkResponseWriter {
  Header : http_Header;
  calls : list call;
  writeFault : option error
}.

Definition WriteHeader (statusCode : Z) (w : ResponseWriter) : ResponseWriter :=
  mkResponseWriter (Header w) (calls w ++ [WriteHeaderCall statusCode (Header w)])
                   (writeFault w).

Definition Write (data : list ascii) (w : ResponseWriter)
  : option error * ResponseWriter :=
  (writeFault w, mkResponseWriter (Header w) (calls w ++ [WriteCall data]) (writeFault w)).

(** [JSONResponse]; [Data] is [nil] or a value. *)
Record JSONResponse (any : Type) := mkJSONResponse {
  Error_ : bool;
  Message : string;
  Data : option any
}.
Arguments mkJSONResponse {any} _ _ _.
Arguments Error_ {any} _.
Arguments Message {any} _.
Arguments Data {any} _.

(** [encoding/json]'s [Marshal] as an interface: [any] is what an [any]
    can hold, a [JSONResponse] among it. *)
Class MarshalLib := {
  any : Type;
  Marshal : any → error + list ascii;
  anyJSONResponse : JSONResponse any → any
}.

(** An [http.Response]; [closed] tells whether [Body.Close] was called. *)
Record Response := mkResponse {
  StatusCode : Z;
  ResponseBody : list ascii;
  closed : bool
}.

(** The request that [http.NewRequest] makes. *)
Record ClientRequest := mkClientRequest {
  Method : string;
  URL : string;
  RequestHeader : http_Header;
  Payload : list ascii
}.

(** An [http.Client]: what its [Do] returns. *)
Record Client := mkClient {
  Do : ClientRequest → error + Response
}.

(** [net/http] on the client side, as an interface: the check of the
    URL that [http.NewRequest] makes, and the client [&http.Client{}]. *)
Class HTTPLib := {
  url_Parse : string → option error;
  zeroClient : Client
}.

Section Responses.
Context `{GoLib} `{MarshalLib} `{HTTPLib}.

(** [for k, v := range headers[0] { w.Header()[k] = v }] *)
Definition rangeHeader (h : http_Header) (w : ResponseWriter) : ResponseWriter :=
  mkResponseWriter (map_fold (λ k v hdr, <[k := v]> hdr) (Header w) h)
                   (calls w) (writeFault w).

Definition WriteJSON (w : ResponseWriter) (status : Z) (data : any)
    (headers : list http_Header) : ResponseWriter * option error :=
  match Marshal data with
  | inl err => (w, Some err)
  | inr out =>
      let w := match headers with
               | h :: _ => rangeHeader h w
               | [] => w
               end in
      let w := mkResponseWriter (Header_Set "Content-Type" "application/json" (Header w))
                                (calls w) (writeFault w) in
      let w := WriteHeader status w in
      let '(err, w) := Write out w in
      match err with
      | Some err => (w, Some err)
      | None => (w, None)
      end
  end.

(** [err.Error()] on a nil [error] is a run-time panic. *)
Definition ErrorJSON (w : ResponseWriter) (err : option error) (status : list Z)
  : ResponseWriter * outcome (option error) :=
  let statusCode := 400 (* http.StatusBadRequest *) in
  let statusCode := match status with s :: _ => s | [] => statusCode end in
  match err with
  | None => (w, Panicked "invalid memory address or nil pointer dereference")
  | Some err =>
      let payload := mkJSONResponse true (Error err) None in
      let '(w, res) := WriteJSON w statusCode (anyJSONResponse payload) [] in
      (w, Returned res)
  end.

(** [http.NewRequest] *)
Definition http_NewRequest (method uri : string) (body : list ascii)
  : error + ClientRequest :=
  match url_Parse uri with
  | Some err => inl err
  | None => inr (mkClientRequest method uri ∅ body)
  end.

(** The deferred [res.Body.Close()] runs before the caller has the
    response. *)
Definition PushJSONToRemote (uri : string) (data : any) (client : list Client)
  : option Response * Z * option error :=
  match Marshal data with
  | inl err => (None, 0, Some err)
  | inr jsonData =>
      let httpClient := zeroClient in
      let httpClient := match client with c :: _ => c | [] => httpClient end in
      match http_NewRequest "POST" uri jsonData with
      | inl err => (None, 0, Some err)
      | inr req =>
          let req := mkClientRequest (Method req) (URL req)
                       (Header_Set "Content-Type" "application/json" (RequestHeader req))
                       (Payload req) in
          match Do httpClient req with
          | inl err => (None, 0, Some err)
          | inr res =>
              let res' := mkResponse (StatusCode res) (ResponseBody res) true in
              (Some res', StatusCode res, None)
          end
      end
  end.
End Responses.

(** A stand-in for [json.Marshal] on the values of the examples: strings,
    a [func] (which has no JSON form) and [JSONResponse]s. *)
#[local] Unset Elimination Schemes.
Inductive refAny :=
| aString (s : string)
| aFunc
| aResponse (isError : bool) (message : string) (data : option refAny).
#[local] Set Elimination Schemes.

Fixpoint escape (s : list ascii) : list ascii :=
  match s with
  | [] => []
  | c :: rest =>
      if Ascii.eqb c quote || Ascii.eqb c "\" then "\"%char :: c :: escape rest
      else c :: escape rest
  end.

Definition quoted (s : string) : list ascii :=
  quote :: escape (bytes_of s) ++ [quote].

Fixpoint refMarshal (v : refAny) : error + list ascii :=
  match v with
  | aString s => inr (quoted s)
  | aFunc => inl (otherError "json: unsupported type: func()")
  | aResponse isError message data =>
      match match data with
            | Some d => refMarshal d
            | None => inr (bytes_of "null")
            end with
      | inl err => inl err
      | inr d =>
          inr (bytes_of "{" ++ quoted "error" ++ bytes_of ":"
                 ++ bytes_of (if isError then "true" else "false")
                 ++ bytes_of "," ++ quoted "message" ++ bytes_of ":" ++ quoted message
                 ++ bytes_of "," ++ quoted "data" ++ bytes_of ":" ++ d ++ bytes_of "}")
      end
  end.

Definition refMarshalLib : MarshalLib :=
  {| any := refAny;
     Marshal := refMarshal;
     anyJSONResponse := λ r, aResponse (Error_ r) (Message r) (Data r) |}.

(** A client whose server answers every request with 202 and the body it
    was sent, and a URL check that refuses the URLs that start with a
    colon (no protocol scheme). *)
Definition echoClient : Client :=
  mkClient (λ req, inr (mkResponse 202 (Payload req) false)).

Definition refHTTPLib : HTTPLib :=
  {| url_Parse := λ uri,
       if String.prefix ":" uri then Some (otherError "missing protocol scheme")
       else None;
     zeroClient := echoClient |}.

(** A response writer on which nothing was done yet. *)
Definition newRecorder : ResponseWriter := mkResponseWriter ∅ [] None.

(** [TestTools_WriteJSON]: a payload with a message, status 200 and the
    header [FOO: BAR] (which [Header.Add] files under [Foo]); no error. *)
Definition writeJSONTestPasses : bool :=
  let headers : http_Header := {[CanonicalMIMEHeaderKey "FOO" := ["BAR"%string]]} in
  let res := WriteJSON (H0:=refMarshalLib) newRecorder 200
               (aResponse false "test message" None) [headers] in
  match res.2 with
  | None => bool_decide (Header res.1 !! "Foo"%string = Some ["BAR"%string])
  | Some _ => false
  end.

(** [TestTools_ErrorJSON]: no error, [error] is true in the payload that
    was written, and the status is 503. *)
Definition errorJSONTestPasses : bool :=
  let res := ErrorJSON (H:=refLib) (H0:=refMarshalLib) newRecorder
               (Some (errorsNew "some error")) [503] in
  match res.2, calls res.1 with
  | Returned None, [WriteHeaderCall code sent; WriteCall body] =>
      (code =? 503) &&
      String.eqb (string_of body)
                 (unq "{qerrorq:true,qmessageq:qsome errorq,qdataq:null}") &&
      bool_decide (sent !! "Content-Type"%string = Some ["application/json"%string])
  | _, _ => false
  end.

(** * Verification *)

(** ** The model against known results

    [filepath.Clean] and [filepath.Ext] on the vectors of the standard
    library's own tests, [filepath.Join], and the directories that a name
    passes through. *)
Example clean_examples :
  map filepath_Clean
    ["abc"; "abc/def"; "a/b/c"; "."; ".."; "../.."; "../../abc"; "/abc"; "/"; "";
     "abc/"; "abc/def/"; "a/b/c/"; "./"; "../"; "../../"; "/abc/";
     "abc//def//ghi"; "//abc"; "///abc"; "//abc//"; "abc//";
     "abc/./def"; "/./abc/def"; "abc/.";
     "abc/def/ghi/../jkl"; "abc/def/../ghi/../jkl"; "abc/def/.."; "abc/def/../..";
     "/abc/def/../.."; "abc/def/../../.."; "/abc/def/../../..";
     "abc/def/../../../ghi/jkl/../../../mno"; "/../abc";
     "abc/./../def"; "abc//./../def"; "abc/../../././../def"]%string
  = ["abc"; "abc/def"; "a/b/c"; "."; ".."; "../.."; "../../abc"; "/abc"; "/"; ".";
     "abc"; "abc/def"; "a/b/c"; "."; ".."; "../.."; "/abc";
     "abc/def/ghi"; "/abc"; "/abc"; "/abc"; "abc";
     "abc/def"; "/abc/def"; "abc";
     "abc/def/jkl"; "abc/jkl"; "abc"; ".";
     "/"; ".."; "/";
     "../../mno"; "/abc";
     "def"; "def"; "../../def"]%string ∧
  map filepath_Ext ["path.go"; "path.pb.go"; "a.dir/b"; "a.dir/b.go"; "a.dir/"]%string
  = [".go"; ".go"; ""; ".go"; ""]%string ∧
  filepath_Join "uploads" "../evil.txt" = "evil.txt"%string ∧
  filepath_Join "./testdata/uploads/" "img.png" = "testdata/uploads/img.png"%string ∧
  filepath_Join "a" "" = "a"%string ∧ filepath_Join "" "b" = "b"%string ∧
  filepath_Join "" "" = ""%string ∧
  ancestors "a/b/c" = ["."; "a"; "a/b"]%string ∧ ancestors "/x" = ["/"]%string ∧
  ancestors "uploads" = ["."]%string ∧ ancestors "." = [].
Proof. split_and!; by vm_compute. Qed.

(** [filepath.Base] on the vectors of the standard library's tests, and
    the directories that the kernel goes through for a path that is not
    clean. *)
Example base_and_walk_examples :
  map filepath_Base
    [""; "."; "/."; "/"; "////"; "x/"; "abc"; "abc/def"; "a/b/.x"; "a/b/c."; "a/b/c.x";
     ".."; "../../etc/passwd"]%string
  = ["."; "."; "."; "/"; "/"; "x"; "abc"; "def"; ".x"; "c."; "c.x"; ".."; "passwd"]%string ∧
  visited "a/b/c" = ["."; "a"; "a/b"]%string ∧
  visited "x/../b" = ["."; "x"; "."]%string ∧
  visited "nodir/." = ["."; "nodir"]%string ∧
  visited "a/b/" = ["."; "a"]%string ∧
  visited "/x//y" = ["/"; "/x"]%string ∧
  visited ".." = ["."; ".."]%string ∧
  visited "uploads/a.txt/../missing/b"
    = ["."; "uploads"; "uploads/a.txt"; "uploads"; "uploads/missing"]%string ∧
  resolve sampleDisk "x/../uploads" = Some ENOENT ∧
  resolve sampleDisk "uploads/../uploads/new" = None.
Proof. split_and!; by vm_compute. Qed.

(** [CreateDirIfNotExist] on paths that are not clean, on the disk with
    the regular file [uploads/a.txt]: a missing directory on the way
    counts although a later [..] leaves it again; a way through a regular
    file is "not a directory", on which the function returns nil; a slash
    at the end does not keep a directory from being made. *)
Example CreateDirIfNotExist_examples :
  let w := mkWorld zeroTools fileDisk countingReader in
  map (λ p, (CreateDirIfNotExist p w).1)
      ["x/../b"; "nodir/."; "x/../uploads/a.txt"; "uploads/a.txt/../missing/b";
       "uploads/a.txt/"; "uploads/"; "uploads/new/"; "uploads/../new"; ""]%string
  = [Returned (Some (os_PathError "mkdir" "x/../b" ENOENT));
     Returned (Some (os_PathError "mkdir" "nodir/." ENOENT));
     Returned (Some (os_PathError "mkdir" "x/../uploads/a.txt" ENOENT));
     Returned None; Returned None; Returned None; Returned None; Returned None;
     Returned (Some (os_PathError "mkdir" "" ENOENT))] ∧
  disk (CreateDirIfNotExist "uploads/a.txt/../missing/b" w).2 !! "uploads/missing/b"%string
    = None ∧
  disk (CreateDirIfNotExist "uploads/new/" w).2 !! "uploads/new"%string = Some Dir ∧
  disk (CreateDirIfNotExist "uploads/../new" w).2 !! "new"%string = Some Dir.
Proof. split_and!; by vm_compute. Qed.

(** The tables of the package's upload and directory tests hold in the
    model. *)
Lemma uploadTests_pass : forallb uploadTestPasses uploadTests = true.
Proof. by vm_compute. Qed.

Lemma createDirTest_passes : createDirTestPasses = true.
Proof. by vm_compute. Qed.

(** ** Byte strings *)

Lemma bytes_of_string_of l : bytes_of (string_of l) = l.
Proof. apply list_ascii_of_string_of_list_ascii. Qed.

Lemma string_of_bytes_of s : string_of (bytes_of s) = s.
Proof. apply string_of_list_ascii_of_string. Qed.

Lemma length_string_of l : String.length (string_of l) = length l.
Proof. induction l as [|c l IH]; simpl; congruence. Qed.

Lemma len_string_of l : len (string_of l) = Z.of_nat (length l).
Proof. unfold len. now rewrite length_string_of. Qed.

(** ** [RandomString] *)

Lemma pick_elem_of r p : r ≠ [] → pick r p ∈ r.
Proof.
  intros Hr. unfold pick. apply list_elem_of_In, nth_In.
  assert (0 < Z.of_nat (length r)) by (destruct r; [done | simpl; lia]).
  pose proof (Z.mod_pos_bound (Uint64 p) (Z.of_nat (length r))). lia.
Qed.

Lemma fillRunes_length r n rd : length (fillRunes r n rd).1 = n.
Proof.
  revert rd. induction n as [|n IH]; intros rd; simpl; [done |].
  specialize (IH (mkRand (stream rd) (S (drawn rd)))).
  destruct (fillRunes r n _) as [rest rd2]. simpl in *. lia.
Qed.

Lemma fillRunes_elem_of r n rd :
  r ≠ [] → Forall (λ c, c ∈ r) (fillRunes r n rd).1.
Proof.
  intros Hr. revert rd. induction n as [|n IH]; intros rd; simpl; [constructor |].
  specialize (IH (mkRand (stream rd) (S (drawn rd)))).
  destruct (fillRunes r n _) as [rest rd2]. simpl in *.
  constructor; [by apply pick_elem_of | done].
Qed.

(** C6 (as amended): for every [n >= 0], [RandomString(n)] returns, without
    touching the receiver or the disk, a string of exactly [n] bytes, each
    of which occurs in [randomStringSource]; that alphabet has 63
    characters. *)
Theorem RandomString_length_alphabet (n : Z) (w : World) :
  0 ≤ n →
  ∃ s w',
    RandomString n w = (Returned s, w') ∧
    len s = n ∧
    Forall (λ c, c ∈ runes randomStringSource) (bytes_of s) ∧
    length (runes randomStringSource) = 63%nat ∧
    tools w' = tools w ∧ disk w' = disk w.
Proof.
  intros Hn. unfold RandomString.
  destruct (Z.ltb_spec n 0) as [|_]; [lia |].
  pose proof (fillRunes_length (runes randomStringSource) (Z.to_nat n) (entropy w)) as Hlen.
  pose proof (fillRunes_elem_of (runes randomStringSource) (Z.to_nat n) (entropy w)) as Hin.
  destruct (fillRunes _ _ _) as [s rd]. simpl in *.
  exists (string_of s), (mkWorld (tools w) (disk w) rd).
  split; [done |]. rewrite len_string_of, bytes_of_string_of, Hlen.
  split; [lia |]. split; [by apply Hin |]. by repeat split.
Qed.

(** C6 (as amended) at [n = 10] in the sample world. *)
Lemma RandomString_length_alphabet_witness :
  ∃ s w',
    RandomString 10 (sampleWorld zeroTools) = (Returned s, w') ∧
    len s = 10 ∧
    Forall (λ c, c ∈ runes randomStringSource) (bytes_of s) ∧
    length (runes randomStringSource) = 63%nat ∧
    tools w' = tools (sampleWorld zeroTools) ∧ disk w' = disk (sampleWorld zeroTools).
Proof. apply (RandomString_length_alphabet 10 (sampleWorld zeroTools)). lia. Defined.

(** C6 as stated fails: the alphabet that [RandomString] indexes has 63
    pairwise different characters, not 64 (the letters [v] and [V] are not
    in it). *)
Lemma randomStringSource_not_64 :
  length (runes randomStringSource) = 63%nat ∧
  length (runes randomStringSource) ≠ 64%nat ∧
  NoDup (runes randomStringSource) ∧
  ("v"%char ∉ runes randomStringSource) ∧ ("V"%char ∉ runes randomStringSource).
Proof.
  repeat split.
  - vm_compute. discriminate.
  - compute_done.
  - compute_done.
  - compute_done.
Qed.

(** ** [Slugify] *)

Lemma slugChar_facts c :
  slugChar c = true → isUpper c = false ∧ isASCII c = true ∧ c ≠ dash.
Proof.
  destruct c as [[] [] [] [] [] [] [] []]; vm_compute; intros Hc;
    try discriminate Hc; repeat split; discriminate.
Qed.

Lemma dash_facts : isUpper dash = false ∧ isASCII dash = true ∧ slugChar dash = false.
Proof. by vm_compute. Qed.

Lemma eqb_dash c : Ascii.eqb c "-" = true ↔ c = dash.
Proof. apply Ascii.eqb_eq. Qed.

Lemma replaceRuns_chars b s :
  Forall (λ c, slugChar c = true ∨ c = dash) (replaceRuns b s).
Proof.
  revert b. induction s as [|c s IH]; intros b; simpl; [constructor |].
  destruct (slugChar c) eqn:Hc; [constructor; auto |].
  destruct b; [apply IH | constructor; auto].
Qed.

Lemma replaceRuns_in_run_head s t : replaceRuns true s ≠ dash :: t.
Proof.
  induction s as [|c s IH]; simpl; [done |].
  destruct (slugChar c) eqn:Hc; [| done].
  intros [= -> _]. by rewrite (proj2 (proj2 dash_facts)) in Hc.
Qed.

Lemma replaceRuns_no_dash_run b s a t :
  replaceRuns b s ≠ a ++ dash :: dash :: t.
Proof.
  revert b a. induction s as [|c s IH]; intros b a; simpl.
  { by destruct a. }
  destruct (slugChar c) eqn:Hc.
  - destruct a as [|x a]; simpl.
    + intros [= -> _]. by rewrite (proj2 (proj2 dash_facts)) in Hc.
    + intros [= _ Heq]. by apply IH in Heq.
  - destruct b; [apply IH |].
    destruct a as [|x a]; simpl.
    + intros [= Heq]. by apply replaceRuns_in_run_head in Heq.
    + intros [= _ Heq]. by apply IH in Heq.
Qed.

Lemma trimLeft_suffix l : ∃ p, l = p ++ trimLeft l.
Proof.
  induction l as [|c l [p IH]]; simpl; [by exists [] |].
  destruct (Ascii.eqb c "-"); [| by exists []].
  exists (c :: p). simpl. by f_equal.
Qed.

Lemma trimLeft_head l t : trimLeft l ≠ dash :: t.
Proof.
  induction l as [|c l IH]; simpl; [done |].
  destruct (Ascii.eqb c "-") eqn:Hc; [done |].
  intros [= -> _]. by rewrite (proj2 (eqb_dash dash)) in Hc.
Qed.

Lemma trimRight_prefix l : ∃ q, l = trimRight l ++ q.
Proof.
  unfold trimRight. destruct (trimLeft_suffix (rev l)) as [p Hp].
  exists (rev p). rewrite <- rev_app_distr, <- Hp. by rewrite rev_involutive.
Qed.

Lemma trimRight_last l t : trimRight l ≠ t ++ [dash].
Proof.
  unfold trimRight. intros Heq. apply (f_equal (@rev ascii)) in Heq.
  rewrite rev_involutive, rev_app_distr in Heq. simpl in Heq.
  by apply trimLeft_head in Heq.
Qed.

(** What [strings.Trim] leaves of a list without dash runs. *)
Lemma trim_shape (l : list ascii) :
  Forall (λ c, slugChar c = true ∨ c = dash) l →
  (∀ a t, l ≠ a ++ dash :: dash :: t) →
  let slug := trimRight (trimLeft l) in
  Forall (λ c, slugChar c = true ∨ c = dash) slug ∧
  (∀ t, slug ≠ dash :: t) ∧ (∀ t, slug ≠ t ++ [dash]) ∧
  (∀ a t, slug ≠ a ++ dash :: dash :: t).
Proof.
  intros Hchars Hrun slug.
  destruct (trimLeft_suffix l) as [p Hp].
  destruct (trimRight_prefix (trimLeft l)) as [q Hq]. fold slug in Hq.
  repeat split.
  - rewrite Hp, Hq in Hchars.
    apply Forall_app in Hchars as [_ Hchars]. by apply Forall_app in Hchars as [? _].
  - intros t Heq. rewrite Heq in Hq. by apply (trimLeft_head l (t ++ q)).
  - apply trimRight_last.
  - intros a t Heq. apply (Hrun (p ++ a) (t ++ q)).
    rewrite Hp at 1. rewrite Hq, Heq. by rewrite <- !app_assoc.
Qed.

Lemma map_lowerByte_id (l : list ascii) :
  Forall (λ c, slugChar c = true ∨ c = dash) l → map lowerByte l = l.
Proof.
  induction 1 as [|c l Hc _ IH]; simpl; [done |]. f_equal; [| done].
  unfold lowerByte. destruct Hc as [Hc | ->].
  - by rewrite (proj1 (slugChar_facts c Hc)).
  - by rewrite (proj1 dash_facts).
Qed.

Lemma forallb_isASCII (l : list ascii) :
  Forall (λ c, slugChar c = true ∨ c = dash) l → forallb isASCII l = true.
Proof.
  induction 1 as [|c l Hc _ IH]; simpl; [done |]. rewrite IH, andb_true_r.
  destruct Hc as [Hc | ->]; [apply (slugChar_facts c Hc) | apply dash_facts].
Qed.

(** C8: a slug that [Slugify] returns without an error consists of
    [a-z], [0-9] and ['-'] only and is left alone by [strings.ToLower]
    (it is fully lowercase), does not start and does not end with ['-'],
    and has no two ['-'] in a row; ["now is the time"] gives
    ["now-is-the-time"], and the empty string is refused. *)
Theorem Slugify_shape `{GoLib} :
  (∀ s slug, Slugify s = (slug, None) →
     Forall (λ c, slugChar c = true ∨ c = dash) (bytes_of slug) ∧
     ToLower slug = slug ∧
     (∀ t, bytes_of slug ≠ dash :: t) ∧
     (∀ t, bytes_of slug ≠ t ++ [dash]) ∧
     (∀ a t, bytes_of slug ≠ a ++ dash :: dash :: t)) ∧
  Slugify "now is the time" = ("now-is-the-time"%string, None) ∧
  Slugify "" = (""%string, Some (errorsNew "empty string is not permitted")).
Proof.
  split; [| split].
  - intros s slug. unfold Slugify.
    destruct (String.eqb s ""); [discriminate |].
    destruct (len _ =? 0); [discriminate |]. intros [= <-].
    unfold Trim, ReplaceAllString. rewrite !bytes_of_string_of.
    destruct (trim_shape (replaceRuns false (bytes_of (ToLower s))))
      as (Hchars & Hhead & Hlast & Hrun).
    { apply replaceRuns_chars. }
    { apply replaceRuns_no_dash_run. }
    repeat split; try done.
    rewrite ToLower_ascii.
    + unfold asciiLower. rewrite bytes_of_string_of. by rewrite map_lowerByte_id.
    + rewrite bytes_of_string_of. by apply forallb_isASCII.
  - unfold Slugify. simpl String.eqb. cbv iota.
    rewrite ToLower_ascii by reflexivity. reflexivity.
  - reflexivity.
Qed.

(** C8 on the third slug of the package's test table. *)
Lemma Slugify_shape_witness :
  let slug := "now-is-the-time-for-all-good-men-fish-such-123"%string in
  Slugify (H:=refLib) "Now is the time for all GOOD men! + fish & such 123"
    = (slug, None) ∧
  Forall (λ c, slugChar c = true ∨ c = dash) (bytes_of slug) ∧
  ToLower (GoLib:=refLib) slug = slug ∧
  (∀ t, bytes_of slug ≠ dash :: t) ∧
  (∀ t, bytes_of slug ≠ t ++ [dash]) ∧
  (∀ a t, bytes_of slug ≠ a ++ dash :: dash :: t).
Proof.
  split; [reflexivity |].
  apply (proj1 (Slugify_shape (H:=refLib))
           "Now is the time for all GOOD men! + fish & such 123").
  reflexivity.
Defined.

(** ** The world monad and the operations on files *)

Lemma extends_refl w : extends w w.
Proof. split; [done |]. intros p n Hp. by exists n. Qed.

Lemma extends_trans w1 w2 w3 : extends w1 w2 → extends w2 w3 → extends w1 w3.
Proof.
  intros [Ht1 Hd1] [Ht2 Hd2]. split; [congruence |].
  intros p n Hp. destruct (Hd1 p n Hp) as (n1 & Hp1 & Hk1).
  destruct (Hd2 p n1 Hp1) as (n2 & Hp2 & Hk2). exists n2. split; [done | congruence].
Qed.

Lemma extends_entropy w rd : extends w (mkWorld (tools w) (disk w) rd).
Proof. split; [done |]. intros p n Hp. by exists n. Qed.

(** Writing a node of the same kind, or a new node, extends the world. *)
Lemma extends_insert w k n rd :
  (∀ n0, disk w !! k = Some n0 → isDir n0 = isDir n) →
  extends w (mkWorld (tools w) (<[k := n]> (disk w)) rd).
Proof.
  intros Hk. split; [done |]. intros p n0 Hp. simpl.
  destruct (decide (k = p)) as [-> | Hne].
  - exists n. rewrite lookup_insert_eq. split; [done |]. symmetry. by apply Hk.
  - exists n0. by rewrite lookup_insert_ne.
Qed.

Ltac munfold :=
  unfold mbind, M_bind, mret, M_ret, getTools, setTools, getDisk, setDisk, panic in *.

Lemma RandomString_returns n w :
  0 ≤ n → ∃ s rd, RandomString n w = (Returned s, mkWorld (tools w) (disk w) rd).
Proof.
  intros Hn. unfold RandomString.
  destruct (Z.ltb_spec n 0) as [|_]; [lia |].
  destruct (fillRunes _ _ _) as [s rd]. by exists (string_of s), rd.
Qed.

Lemma Read_spec f size :
  match Read f size with
  | (_, _, Some e, f') => f' = f
  | (_, _, None, f') =>
      content f' = content f ∧ seekFault f' = seekFault f ∧
      copyFault f' = copyFault f ∧ content f ≠ [] ∧ readFault f = None
  end.
Proof.
  unfold Read. destruct (readFault f); [done |].
  destruct (take size (drop (pos f) (content f))) as [|c chunk] eqn:Hchunk; [done |].
  repeat split. intros Hnil. rewrite Hnil, drop_nil, take_nil in Hchunk. done.
Qed.

Lemma Read_empty f size :
  content f = [] →
  ∃ e, Read f size = (repeat "000"%char size, 0, Some e, f) ∧
       (readFault f = None → e = io_EOF).
Proof.
  intros Hc. unfold Read. destruct (readFault f) as [e |].
  - by exists e.
  - exists io_EOF. by rewrite Hc, drop_nil, take_nil.
Qed.

Lemma Seek0_spec f :
  match Seek0 f with
  | (Some e, f') => f' = f
  | (None, f') =>
      content f' = content f ∧ pos f' = 0%nat ∧ copyFault f' = copyFault f
  end.
Proof. unfold Seek0. by destruct (seekFault f). Qed.

Lemma os_Create_spec p w :
  match create (disk w) p with
  | inl e => os_Create p w = (Returned (inl e), w)
  | inr (h, d') =>
      os_Create p w = (Returned (inr h), mkWorld (tools w) d' (entropy w)) ∧
      h = filepath_Clean p ∧ d' = <[h := Regular []]> (disk w) ∧
      disk w !! h ≠ Some Dir
  end.
Proof.
  unfold os_Create, create. munfold.
  destruct (resolve _ _); [done |].
  destruct (disk w !! filepath_Clean p) as [[|data] |] eqn:Hk; [done | |];
    destruct (trailingSlash p); by rewrite ?Hk.
Qed.

Lemma io_Copy_spec h f w :
  match copyFault f with
  | Some e => io_Copy h f w = (Returned (0, Some e), w)
  | None =>
      io_Copy h f w =
        (Returned (Z.of_nat (length (drop (pos f) (content f))), None),
         mkWorld (tools w) (<[h := Regular (drop (pos f) (content f))]> (disk w))
                 (entropy w))
  end.
Proof. unfold io_Copy. by destruct (copyFault f). Qed.

Lemma CreateDirIfNotExist_spec path w :
  ∃ err w',
    CreateDirIfNotExist path w = (Returned err, w') ∧ extends w w' ∧
    (err ≠ None → w' = w).
Proof.
  unfold CreateDirIfNotExist, os_Stat, os_Mkdir. munfold.
  destruct (os_IsNotExist _).
  - unfold mkdir. destruct (resolve _ _).
    { eexists _, _. split; [reflexivity |]. split; [apply extends_refl | done]. }
    destruct (disk w !! filepath_Clean path) eqn:Hk.
    { eexists _, _. split; [reflexivity |]. split; [apply extends_refl | done]. }
    eexists _, _. split; [reflexivity |]. split; [| done].
    apply extends_insert. intros n0 Hn0. congruence.
  - eexists _, _. split; [reflexivity |]. split; [apply extends_refl | done].
Qed.

(** ** The allow-list *)

Section AllowList.
Context `{GoLib}.





End AllowList.

(** ** The closure of [UploadFiles] *)

Section Closure.
Context `{GoLib}.

Ltac failed_part :=
  eexists _, _; split; [reflexivity |]; split; [apply extends_refl | done].

(** A part either fails, with an empty manifest, or is stored under its
    new name with all of its bytes and joins the manifest. *)
Lemma uploadPart_spec renameFile uploadDir hdr files w :
  ∃ res w',
    uploadPart renameFile uploadDir hdr files w = (Returned res, w') ∧
    extends w w' ∧
    match res with
    | (fs, Some _) => fs = []
    | (fs, None) =>
        ∃ infile name ty,
          Open hdr = inr infile ∧ content infile ≠ [] ∧
          sniffedType hdr = Some ty ∧
          isAllowed (AllowedFileTypes (tools w)) ty = true ∧
          (renameFile = false → name = Filename hdr) ∧
          fs = files ++ [mkUploadedFile name (Filename hdr)
                           (Z.of_nat (length (content infile)))] ∧
          disk w' !! filepath_Clean (filepath_Join uploadDir name)
            = Some (Regular (content infile))
    end.
Proof.
  unfold uploadPart, sniffedType.
  destruct (Open hdr) as [e | infile] eqn:Hopen; [failed_part |].
  pose proof (Read_spec infile 512) as HR.
  destruct (Read infile 512) as [[[buff n] [e|]] f1]; [failed_part |].
  destruct HR as (Hc1 & Hs1 & Hf1 & Hne & Hrf).
  munfold.
  destruct (isAllowed _ _) eqn:Hallowed; cbn [negb]; cbv beta iota; [| failed_part].
  pose proof (Seek0_spec f1) as HS.
  destruct (Seek0 f1) as [[e|] f2]; [failed_part |].
  destruct HS as (Hc2 & Hp2 & Hf2).
  match goal with
  | |- context [let (_, _) := ?m w in _] => set (naming := m w)
  end.
  assert (∃ name rd,
             naming = (Returned name, mkWorld (tools w) (disk w) rd) ∧
             (renameFile = false → name = Filename hdr))
    as (name & rd & -> & Hname).
  { subst naming. destruct renameFile.
    - destruct (RandomString_returns 25 w) as (s & rd & ->); [lia |].
      eexists _, _. split; [reflexivity | done].
    - exists (Filename hdr), (entropy w). by destruct w. }
  set (w0 := mkWorld (tools w) (disk w) rd).
  pose proof (os_Create_spec (filepath_Join uploadDir name) w0) as HC.
  destruct (create _ _) as [e | [h d']].
  { rewrite HC. eexists _, _. split; [reflexivity |].
    split; [apply extends_entropy | done]. }
  destruct HC as (-> & -> & -> & Hnodir).
  set (k := filepath_Clean (filepath_Join uploadDir name)) in *.
  set (w1 := mkWorld _ _ _).
  assert (extends w w1) as Hw1.
  { apply (extends_insert w k (Regular []) rd).
    intros [|data] Hk; [done | done]. }
  pose proof (io_Copy_spec k f2 w1) as HP.
  destruct (copyFault f2) as [e |].
  { rewrite HP. eexists _, _. split; [reflexivity |]. by split. }
  rewrite HP, Hp2, Hc2, Hc1. simpl.
  eexists _, _. split; [reflexivity |]. split.
  { eapply extends_trans; [apply Hw1 |].
    apply (extends_insert w1 k (Regular (content infile)) rd).
    intros n0. subst w1. simpl. rewrite lookup_insert_eq. by intros [= <-]. }
  exists infile, name, (DetectContentType buff). repeat split; try done.
  simpl. apply lookup_insert_eq.
Qed.


(** Step 2 of the closure on a part without bytes. *)
Lemma uploadPart_zeroByte renameFile uploadDir hdr files w :
  zeroByte hdr →
  ∃ e, uploadPart renameFile uploadDir hdr files w = (Returned ([], Some e), w) ∧
       (∀ f, Open hdr = inr f → readFault f = None → e = io_EOF).
Proof.
  unfold zeroByte, uploadPart. destruct (Open hdr) as [e | infile]; [done |].
  intros Hc. destruct (Read_empty infile 512 Hc) as (e & -> & He).
  exists e. split; [done |]. by intros f [= <-].
Qed.
End Closure.

(** ** The loops *)

Section Loops.
Context `{GoLib}.

Lemma stored_extends t renameFile uploadDir w w' hdr f :
  extends w w' → stored t renameFile uploadDir w hdr f →
  stored t renameFile uploadDir w' hdr f.
Proof.
  intros [_ Hd] (Ho & Hn & Hf & data & Hp). repeat split; try done.
  destruct (Hd _ _ Hp) as ([|data'] & Hp' & Hk); [done |]. by exists data'.
Qed.

Lemma rangeHeaders_app renameFile uploadDir pre post files w :
  rangeHeaders renameFile uploadDir (pre ++ post) files w =
  match rangeHeaders renameFile uploadDir pre files w with
  | (Returned (Next files1), w1) => rangeHeaders renameFile uploadDir post files1 w1
  | other => other
  end.
Proof.
  revert files w. induction pre as [|hdr pre IH]; intros files w; simpl; [done |].
  munfold.
  destruct (uploadPart renameFile uploadDir hdr files w) as [[[fs [e|]] | msg] w1];
    [done | apply IH | done].
Qed.

(** The two nested loops visit the parts of the form one after the other. *)
Lemma rangeForm_parts renameFile uploadDir form files w :
  rangeForm renameFile uploadDir form files w =
  rangeHeaders renameFile uploadDir (partsOf form) files w.
Proof.
  revert files w. induction form as [|[field hdrs] form IH]; intros files w; [done |].
  unfold partsOf. simpl. fold (partsOf form). rewrite rangeHeaders_app. munfold.
  destruct (rangeHeaders renameFile uploadDir hdrs files w) as [[[res | fs] | msg] w1];
    [done | apply IH | done].
Qed.

(** The loop never panics; it either leaves with an error and no manifest
    or has stored every part. *)
Lemma rangeHeaders_spec renameFile uploadDir hdrs files w :
  ∃ fl w',
    rangeHeaders renameFile uploadDir hdrs files w = (Returned fl, w') ∧
    extends w w' ∧
    match fl with
    | Return res => ∃ e, res = ([], Some e)
    | Next fs =>
        ∃ new, fs = files ++ new ∧
               Forall2 (stored (tools w) renameFile uploadDir w') hdrs new
    end.
Proof.
  revert files w. induction hdrs as [|hdr hdrs IH]; intros files w; simpl.
  { exists (Next files), w. split; [done |]. split; [apply extends_refl |].
    exists []. by rewrite app_nil_r. }
  munfold.
  destruct (uploadPart_spec renameFile uploadDir hdr files w)
    as ([fs [e|]] & w1 & -> & Hext & Hres).
  { subst fs. exists (Return ([], Some e)), w1. split; [done |]. split; [done |].
    by exists e. }
  destruct Hres as (infile & name & ty & Hopen & Hne & Hty & Hal & Hname & -> & Hdisk).
  destruct (IH (files ++ [mkUploadedFile name (Filename hdr)
                            (Z.of_nat (length (content infile)))]) w1)
    as (fl & w2 & -> & Hext2 & Hfl).
  exists fl, w2. split; [done |]. split; [by eapply extends_trans |].
  destruct fl as [res | fs]; [done |].
  destruct Hfl as (new & -> & Hnew).
  exists (mkUploadedFile name (Filename hdr) (Z.of_nat (length (content infile))) :: new).
  split; [by rewrite <- app_assoc |].
  constructor.
  - apply (stored_extends _ _ _ w1 w2); [done |].
    repeat split; try done.
    + by exists infile, ty.
    + by exists (content infile).
  - destruct Hext as [Ht _]. by rewrite <- Ht.
Qed.

Lemma rangeHeaders_doomed renameFile uploadDir hdrs hdr files w :
  hdr ∈ hdrs → doomed renameFile uploadDir (tools w) hdr →
  ∃ e w',
    rangeHeaders renameFile uploadDir hdrs files w
      = (Returned (Return ([], Some e)), w') ∧ extends w w'.
Proof.
  intros Hin Hdoomed. revert files w Hdoomed.
  induction hdrs as [|h hdrs IH]; intros files w Hdoomed.
  { by apply elem_of_nil in Hin. }
  simpl. munfold.
  destruct (uploadPart_spec renameFile uploadDir h files w)
    as ([fs [e|]] & w1 & Hrun & Hext & Hres).
  { subst fs. rewrite Hrun. exists e, w1. by split. }
  apply elem_of_cons in Hin as [-> | Hin].
  { destruct (Hdoomed files w eq_refl) as (e & He). congruence. }
  rewrite Hrun.
  destruct (IH Hin fs w1) as (e & w2 & -> & Hext2).
  { destruct Hext as [-> _]. done. }
  exists e, w2. split; [done | by eapply extends_trans].
Qed.

(** [UploadFiles], one step after the other. *)
Lemma UploadFiles_steps r uploadDir rename w :
  UploadFiles r uploadDir rename w =
  match CreateDirIfNotExist uploadDir (withDefaultMaxFileSize w) with
  | (Returned (Some err), w1) => (Returned ([], Some err), w1)
  | (Returned None, w1) =>
      match ParseMultipartForm r (MaxFileSize (tools w1)) with
      | inl _ => (Returned ([], Some (errorsNew "uploaded file is too big")), w1)
      | inr form =>
          match rangeHeaders match rename with b :: _ => b | [] => true end
                             uploadDir (partsOf form) [] w1 with
          | (Returned (Return res), w2) => (Returned res, w2)
          | (Returned (Next uploadedFiles), w2) => (Returned (uploadedFiles, None), w2)
          | (Panicked msg, w2) => (Panicked msg, w2)
          end
      end
  | (Panicked msg, w1) => (Panicked msg, w1)
  end.
Proof.
  unfold UploadFiles, withDefaultMaxFileSize. munfold.
  destruct (MaxFileSize (tools w) =? 0); cbv beta iota;
    (destruct (CreateDirIfNotExist uploadDir _) as [[[e|] | msg] w1]; try done;
     cbv beta iota;
     destruct (ParseMultipartForm r _) as [e | form]; [done |];
     rewrite rangeForm_parts;
     by destruct (rangeHeaders _ _ _ _ _) as [[[res | fs] | msg] w2]).
Qed.
End Loops.

(** ** [UploadFiles]: what a call returns *)

Section Call.
Context `{GoLib}.

Lemma tools_withDefault w :
  AllowedFileTypes (tools (withDefaultMaxFileSize w)) = AllowedFileTypes (tools w) ∧
  MaxJSONSize (tools (withDefaultMaxFileSize w)) = MaxJSONSize (tools w) ∧
  AllowUnknownFields (tools (withDefaultMaxFileSize w)) = AllowUnknownFields (tools w) ∧
  MaxFileSize (tools (withDefaultMaxFileSize w))
    = (if MaxFileSize (tools w) =? 0 then 1073741824 else MaxFileSize (tools w)).
Proof. unfold withDefaultMaxFileSize. by destruct (MaxFileSize (tools w) =? 0). Qed.

Lemma extends_withDefault w p n :
  disk w !! p = Some n → disk (withDefaultMaxFileSize w) !! p = Some n.
Proof. unfold withDefaultMaxFileSize. by destruct (MaxFileSize (tools w) =? 0). Qed.

(** A call never panics.  It ends in an error and an empty manifest, or in
    a manifest with one entry for every part of the form, in order. *)
Lemma UploadFiles_spec r uploadDir rename w :
  ∃ res w',
    UploadFiles r uploadDir rename w = (Returned res, w') ∧
    extends (withDefaultMaxFileSize w) w' ∧
    match res with
    | (fs, Some _) => fs = []
    | (fs, None) =>
        ∃ form,
          ParseMultipartForm r (MaxFileSize (tools w')) = inr form ∧
          Forall2 (stored (tools w') (renameFlag rename) uploadDir w') (partsOf form) fs
    end.
Proof.
  rewrite UploadFiles_steps.
  destruct (CreateDirIfNotExist_spec uploadDir (withDefaultMaxFileSize w))
    as ([e|] & w1 & -> & Hext1 & _).
  { by eexists _, _. }
  destruct (ParseMultipartForm r (MaxFileSize (tools w1))) as [e | form] eqn:Hparse.
  { by eexists _, _. }
  destruct (rangeHeaders_spec (renameFlag rename) uploadDir (partsOf form) [] w1)
    as (fl & w2 & Hrun & Hext2 & Hfl).
  unfold renameFlag in Hrun. rewrite Hrun.
  destruct fl as [res | fs].
  - destruct Hfl as (e & ->). eexists _, _. split; [done |].
    split; [by eapply extends_trans | done].
  - destruct Hfl as (new & -> & Hnew). eexists _, _. split; [done |].
    split; [by eapply extends_trans |].
    destruct Hext2 as [Ht _]. exists form. rewrite Ht. by split.
Qed.

(** A doomed part anywhere in the form makes the call fail. *)
Lemma UploadFiles_doomed r uploadDir rename w :
  (∀ form,
     ParseMultipartForm r (MaxFileSize (tools (withDefaultMaxFileSize w))) = inr form →
     ∃ hdr, hdr ∈ partsOf form ∧
            doomed (renameFlag rename) uploadDir (tools (withDefaultMaxFileSize w)) hdr) →
  ∃ e w', UploadFiles r uploadDir rename w = (Returned ([], Some e), w').
Proof.
  intros Hform. rewrite UploadFiles_steps.
  destruct (CreateDirIfNotExist_spec uploadDir (withDefaultMaxFileSize w))
    as ([e|] & w1 & -> & [Ht1 _] & _).
  { by eexists _, _. }
  rewrite Ht1.
  destruct (ParseMultipartForm r _) as [e | form] eqn:Hparse.
  { by eexists _, _. }
  destruct (Hform form eq_refl) as (hdr & Hin & Hdoomed).
  rewrite <- Ht1 in Hdoomed.
  destruct (rangeHeaders_doomed (renameFlag rename) uploadDir (partsOf form) hdr [] w1
              Hin Hdoomed) as (e & w2 & Hrun & _).
  unfold renameFlag in Hrun. rewrite Hrun. by eexists _, _.
Qed.

(** The call when the loop gets as far as the part [hdr] and the closure
    fails there: the error of the closure is the error of the call, the
    manifest is empty, the parts after [hdr] are not looked at. *)
Lemma UploadFiles_fails_at r uploadDir rename w w1 form pre hdr post files1 w2 fs e w3 :
  CreateDirIfNotExist uploadDir (withDefaultMaxFileSize w) = (Returned None, w1) →
  ParseMultipartForm r (MaxFileSize (tools w1)) = inr form →
  partsOf form = pre ++ hdr :: post →
  rangeHeaders (renameFlag rename) uploadDir pre [] w1 = (Returned (Next files1), w2) →
  uploadPart (renameFlag rename) uploadDir hdr files1 w2 = (Returned (fs, Some e), w3) →
  UploadFiles r uploadDir rename w = (Returned ([], Some e), w3) ∧
  Forall2 (stored (tools w) (renameFlag rename) uploadDir w3) pre files1.
Proof.
  intros Hdir Hparse Hparts Hpre Hpart.
  rewrite UploadFiles_steps, Hdir, Hparse, Hparts, rangeHeaders_app.
  fold (renameFlag rename). rewrite Hpre. simpl. munfold. rewrite Hpart.
  destruct (uploadPart_spec (renameFlag rename) uploadDir hdr files1 w2)
    as (res & w3' & Hrun & Hext3 & Hres).
  rewrite Hpart in Hrun. injection Hrun as <- <-. subst fs. split; [done |].
  destruct (rangeHeaders_spec (renameFlag rename) uploadDir pre [] w1)
    as (fl & w2' & Hrun & Hext2 & Hfl).
  rewrite Hpre in Hrun. injection Hrun as <- <-.
  destruct Hfl as (new & Hnew & Hstored). simpl in Hnew. subst new.
  destruct (CreateDirIfNotExist_spec uploadDir (withDefaultMaxFileSize w))
    as (err & w1' & Hrun & [Ht1 _] & _).
  rewrite Hdir in Hrun. injection Hrun as <- <-.
  assert (AllowedFileTypes (tools w1) = AllowedFileTypes (tools w)) as Hallow.
  { rewrite Ht1. apply tools_withDefault. }
  eapply Forall2_impl; [apply Hstored |].
  intros h f Hst. apply (stored_extends _ _ _ w2 w3 h f Hext3).
  destruct Hst as (? & ? & (infile & ty & ? & ? & ? & ? & Hal) & ?).
  repeat split; try done. exists infile, ty. by rewrite <- Hallow.
Qed.
End Call.

(** ** Uploads: the properties *)

(** C1: [UploadOneFile] hands on the error of [UploadFiles], and returns
    the first entry of a manifest that has one; on an empty manifest
    without an error it does not fail with an error of its own but indexes
    the empty slice, which is a run-time panic.  [UploadFiles] returns such
    a manifest when the form has no file parts at all. *)
Theorem UploadOneFile_cases `{GoLib} :
  (∀ r uploadDir rename w fs e w',
     UploadFiles r uploadDir [renameFlag rename] w = (Returned (fs, Some e), w') →
     UploadOneFile r uploadDir rename w = (Returned (None, Some e), w')) ∧
  (∀ r uploadDir rename w f fs w',
     UploadFiles r uploadDir [renameFlag rename] w = (Returned (f :: fs, None), w') →
     UploadOneFile r uploadDir rename w = (Returned (Some f, None), w')) ∧
  (∀ r uploadDir rename w w',
     UploadFiles r uploadDir [renameFlag rename] w = (Returned ([], None), w') →
     UploadOneFile r uploadDir rename w
       = (Panicked "index out of range [0] with length 0", w')) ∧
  (∀ r uploadDir rename w w',
     UploadFiles r uploadDir rename w = (Returned ([], None), w') →
     ∃ form, ParseMultipartForm r (MaxFileSize (tools w')) = inr form ∧
             partsOf form = []) ∧
  (UploadFiles (H:=refLib) noFiles "uploads" [true] (sampleWorld zeroTools)).1
    = Returned ([], None) ∧
  (UploadOneFile (H:=refLib) noFiles "uploads" [] (sampleWorld zeroTools)).1
    = Panicked "index out of range [0] with length 0".
Proof.
  split_and!.
  - intros * Hrun. unfold UploadOneFile. munfold.
    fold (renameFlag rename). by rewrite Hrun.
  - intros * Hrun. unfold UploadOneFile. munfold.
    fold (renameFlag rename). by rewrite Hrun.
  - intros * Hrun. unfold UploadOneFile. munfold.
    fold (renameFlag rename). by rewrite Hrun.
  - intros * Hcall.
    destruct (UploadFiles_spec r uploadDir rename w) as (res & w0 & Hrun & _ & Hres).
    rewrite Hcall in Hrun. injection Hrun as <- <-.
    destruct Hres as (form & Hparse & Hstored). exists form. split; [done |].
    by apply Forall2_nil_inv_r in Hstored.
  - by vm_compute.
  - by vm_compute.
Qed.

(** C5: [CreateDirIfNotExist] calls [os.Mkdir], which creates one level.
    An absent directory whose parents are there is created.  When a
    directory on the way to the path is missing, nothing is created and
    the error of [os.Mkdir] is what [CreateDirIfNotExist], and with it
    [UploadFiles], returns; so for ["a/b"] on a disk without ["a"]. *)
Theorem CreateDirIfNotExist_missing_parent `{GoLib} :
  (∀ path w,
     resolve (disk w) path = None → disk w !! filepath_Clean path = None →
     CreateDirIfNotExist path w
       = (Returned None,
          mkWorld (tools w) (<[filepath_Clean path := Dir]> (disk w)) (entropy w))) ∧
  (∀ path w,
     resolve (disk w) path = Some ENOENT →
     CreateDirIfNotExist path w
       = (Returned (Some (os_PathError "mkdir" path ENOENT)), w)) ∧
  (∀ r path rename w,
     resolve (disk w) path = Some ENOENT →
     UploadFiles r path rename w
       = (Returned ([], Some (os_PathError "mkdir" path ENOENT)),
          withDefaultMaxFileSize w)) ∧
  resolve sampleDisk "a/b" = Some ENOENT ∧
  CreateDirIfNotExist "a/b" (sampleWorld zeroTools)
    = (Returned (Some (os_PathError "mkdir" "a/b" ENOENT)), sampleWorld zeroTools) ∧
  UploadFiles (H:=refLib) onePNG "a/b" [] (sampleWorld zeroTools)
    = (Returned ([], Some (os_PathError "mkdir" "a/b" ENOENT)),
       withDefaultMaxFileSize (sampleWorld zeroTools)).
Proof.
  assert (∀ path w,
     resolve (disk w) path = Some ENOENT →
     CreateDirIfNotExist path w
       = (Returned (Some (os_PathError "mkdir" path ENOENT)), w)) as Hdir.
  { intros path w Hwalk.
    unfold CreateDirIfNotExist, os_Stat, os_Mkdir, stat, mkdir. munfold.
    rewrite Hwalk. cbn [os_IsNotExist errOf]. cbv beta. by rewrite Hwalk. }
  assert (∀ (L : GoLib) r path rename w,
     resolve (disk w) path = Some ENOENT →
     UploadFiles r path rename w
       = (Returned ([], Some (os_PathError "mkdir" path ENOENT)),
          withDefaultMaxFileSize w)) as Hup.
  { intros L r path rename w Hwalk. rewrite UploadFiles_steps, Hdir; [done |].
    unfold withDefaultMaxFileSize. by destruct (MaxFileSize (tools w) =? 0). }
  assert (resolve sampleDisk "a/b" = Some ENOENT) as Hwalk by by vm_compute.
  split_and!; [| done | apply Hup | done | by apply Hdir | by apply Hup].
  intros path w Hres Hnone.
  unfold CreateDirIfNotExist, os_Stat, os_Mkdir, stat, mkdir. munfold.
  rewrite Hres, Hnone. cbn [os_IsNotExist errOf]. cbv beta. by rewrite Hres, Hnone.
Qed.




(** C9: whenever [UploadFiles] returns an error, the manifest it returns
    is empty.  That is so also when the closure fails at a part [hdr] after
    the parts [pre] before it were stored: their entries [files1] are not
    returned, and their files are still regular files on the disk that the
    call leaves.  No file that was there before the call is removed. *)
Theorem UploadFiles_error_manifest `{GoLib} r uploadDir rename w files e w' :
  UploadFiles r uploadDir rename w = (Returned (files, Some e), w') →
  files = [] ∧
  (∀ p data, disk w !! p = Some (Regular data) →
             ∃ data', disk w' !! p = Some (Regular data')) ∧
  (∀ w1 form pre hdr post files1 w2 fs e' w3,
     CreateDirIfNotExist uploadDir (withDefaultMaxFileSize w) = (Returned None, w1) →
     ParseMultipartForm r (MaxFileSize (tools w1)) = inr form →
     partsOf form = pre ++ hdr :: post →
     rangeHeaders (renameFlag rename) uploadDir pre [] w1 = (Returned (Next files1), w2) →
     uploadPart (renameFlag rename) uploadDir hdr files1 w2 = (Returned (fs, Some e'), w3) →
     e' = e ∧ w3 = w' ∧
     Forall2 (stored (tools w) (renameFlag rename) uploadDir w') pre files1).
Proof.
  intros Hcall.
  destruct (UploadFiles_spec r uploadDir rename w) as (res & w0 & Hrun & [_ Hext] & Hres).
  rewrite Hcall in Hrun. injection Hrun as <- <-. split_and!.
  - done.
  - intros p data Hp. apply extends_withDefault in Hp.
    destruct (Hext p _ Hp) as ([|data'] & Hp' & Hk); [done |]. by exists data'.
  - intros * Hdir Hparse Hparts Hpre Hpart.
    destruct (UploadFiles_fails_at r uploadDir rename w w1 form pre hdr post files1 w2
                fs e' w3 Hdir Hparse Hparts Hpre Hpart) as [Hrun Hstored].
    rewrite Hcall in Hrun. injection Hrun as _ <- <-. done.
Qed.

(** C9 on a JPEG part followed by a PNG part when only JPEG is allowed:
    the manifest is empty and the JPEG file is on the disk. *)
Lemma UploadFiles_error_manifest_witness :
  ∃ files e w',
    UploadFiles (H:=refLib) jpegThenPNG "uploads" [false] (sampleWorld jpegOnly)
      = (Returned (files, Some e), w') ∧
    files = [] ∧
    disk w' !! "uploads/a.jpg"%string = Some (Regular jpegBytes).
Proof.
  destruct (UploadFiles_spec (H:=refLib) jpegThenPNG "uploads" [false]
              (sampleWorld jpegOnly)) as ([fs e] & w' & Hrun & _ & _).
  assert ((UploadFiles (H:=refLib) jpegThenPNG "uploads" [false]
             (sampleWorld jpegOnly)).1 = Returned ([], Some notPermitted)) as Hval
    by by vm_compute.
  assert (disk (UploadFiles (H:=refLib) jpegThenPNG "uploads" [false]
             (sampleWorld jpegOnly)).2 !! "uploads/a.jpg"%string
          = Some (Regular jpegBytes)) as Hdisk by by vm_compute.
  rewrite Hrun in Hval, Hdisk. simpl in Hval, Hdisk.
  destruct e as [e |]; [| by injection Hval].
  exists fs, e, w'. split; [done |]. split; [| done].
  exact (proj1 (UploadFiles_error_manifest jpegThenPNG "uploads" [false]
                  (sampleWorld jpegOnly) fs e w' Hrun)).
Defined.

(** C10: a part without bytes makes the call fail, wherever it stands in
    the form, and no manifest is returned; when the loop gets to the part
    and the device is healthy, the error is [io.EOF] from the first
    [Read].  So every entry of a manifest that is returned without an error
    has a size above zero, and no part of the form was empty. *)
Theorem UploadFiles_zero_byte_part `{GoLib} :
  (∀ r uploadDir rename w,
     (∀ form,
        ParseMultipartForm r (MaxFileSize (tools (withDefaultMaxFileSize w))) = inr form →
        ∃ hdr, hdr ∈ partsOf form ∧ zeroByte hdr) →
     ∃ e w', UploadFiles r uploadDir rename w = (Returned ([], Some e), w')) ∧
  (∀ r uploadDir rename w w1 form pre hdr post files1 w2,
     CreateDirIfNotExist uploadDir (withDefaultMaxFileSize w) = (Returned None, w1) →
     ParseMultipartForm r (MaxFileSize (tools w1)) = inr form →
     partsOf form = pre ++ hdr :: post →
     rangeHeaders (renameFlag rename) uploadDir pre [] w1 = (Returned (Next files1), w2) →
     zeroByte hdr →
     (∀ f, Open hdr = inr f → readFault f = None) →
     UploadFiles r uploadDir rename w = (Returned ([], Some io_EOF), w2)) ∧
  (∀ r uploadDir rename w files w',
     UploadFiles r uploadDir rename w = (Returned (files, None), w') →
     Forall (λ f, 0 < FileSize f) files ∧
     ∃ form,
       ParseMultipartForm r (MaxFileSize (tools w')) = inr form ∧
       Forall (λ hdr, ¬ zeroByte hdr) (partsOf form)).
Proof.
  split_and!.
  - intros * Hform. apply UploadFiles_doomed. intros form Hparse.
    destruct (Hform form Hparse) as (hdr & Hin & Hzero).
    exists hdr. split; [done |]. intros files w0 _.
    destruct (uploadPart_zeroByte (renameFlag rename) uploadDir hdr files w0 Hzero)
      as (e & Hrun & _).
    by exists e.
  - intros * Hdir Hparse Hparts Hpre Hzero Hhealthy.
    destruct (uploadPart_zeroByte (renameFlag rename) uploadDir hdr files1 w2 Hzero)
      as (e & Hrun & He).
    assert (e = io_EOF) as ->.
    { unfold zeroByte in Hzero. destruct (Open hdr) as [? | f] eqn:Hopen; [done |].
      apply (He f eq_refl). by apply Hhealthy. }
    by eapply UploadFiles_fails_at.
  - intros * Hcall.
    destruct (UploadFiles_spec r uploadDir rename w) as (res & w0 & Hrun & _ & Hres).
    rewrite Hcall in Hrun. injection Hrun as <- <-.
    destruct Hres as (form & Hparse & Hstored). split.
    + clear Hparse Hcall.
      induction Hstored as [|hdr f hdrs fs Hst _ IH]; constructor; [| done].
      destruct Hst as (_ & _ & (infile & ty & _ & Hne & -> & _) & _).
      destruct (content infile); [done | simpl; lia].
    + exists form. split; [done |]. clear Hparse Hcall.
      induction Hstored as [|hdr f hdrs fs Hst _ IH]; constructor; [| done].
      destruct Hst as (_ & _ & (infile & ty & Hopen & Hne & _) & _).
      unfold zeroByte. by rewrite Hopen.
Qed.

(** C10 on a form whose second part has no bytes. *)
Lemma UploadFiles_zero_byte_part_witness :
  ∃ e w',
    UploadFiles (H:=refLib) withEmptyPart "uploads" [] (sampleWorld zeroTools)
      = (Returned ([], Some e), w').
Proof.
  apply (proj1 (UploadFiles_zero_byte_part (H:=refLib))
           withEmptyPart "uploads" [] (sampleWorld zeroTools)).
  intros form [= <-]. exists (part "empty.txt" []). split; [| done].
  unfold partsOf. simpl. set_solver.
Defined.

(** C7 (as amended): [ReadJSON] leaves the receiver as it is;
    [UploadFiles] leaves [AllowedFileTypes], [MaxJSONSize] and
    [AllowUnknownFields] as they are and stores 1 GiB in a [MaxFileSize]
    that is zero (any other [MaxFileSize] stays). *)
Theorem configuration_after_call `{GoLib} `{JSONLib} r uploadDir rename data w :
  tools (ReadJSON r data w).2 = tools w ∧
  AllowedFileTypes (tools (UploadFiles r uploadDir rename w).2)
    = AllowedFileTypes (tools w) ∧
  MaxJSONSize (tools (UploadFiles r uploadDir rename w).2) = MaxJSONSize (tools w) ∧
  AllowUnknownFields (tools (UploadFiles r uploadDir rename w).2)
    = AllowUnknownFields (tools w) ∧
  MaxFileSize (tools (UploadFiles r uploadDir rename w).2)
    = (if MaxFileSize (tools w) =? 0 then 1073741824 else MaxFileSize (tools w)).
Proof.
  split.
  - unfold ReadJSON. munfold.
    destruct (Decode _ data) as [[data1 [e|]] dec1]; [done |].
    destruct (Decode dec1 emptyStruct) as [[data2 e2] dec2].
    by destruct (negb (isEOF e2)).
  - destruct (UploadFiles_spec r uploadDir rename w) as (res & w' & -> & [Ht _] & _).
    simpl. rewrite Ht. apply tools_withDefault.
Qed.

(** C7 as stated fails: a call of [UploadFiles] on a receiver whose
    [MaxFileSize] is zero leaves 1073741824 there. *)
Lemma UploadFiles_sets_MaxFileSize :
  MaxFileSize (tools (sampleWorld zeroTools)) = 0 ∧
  MaxFileSize
    (tools (UploadFiles (H:=refLib) noFiles "uploads" [] (sampleWorld zeroTools)).2)
  = 1073741824.
Proof. split; by vm_compute. Qed.

(** ** [ReadJSON] *)

(** The table of the package's JSON tests holds in the model. *)
Lemma jsonTests_pass : forallb jsonTestPasses jsonTests = true.
Proof. by vm_compute. Qed.

Section Steps.
Context `{GoLib} `{JSONLib}.

(** [ReadJSON], one step after the other. *)
Lemma ReadJSON_steps r data w :
  ReadJSON r data w =
  match Decode (bodyDecoder (tools w) r) data with
  | (data1, Some err, _) =>
      (Returned (data1,
                 Some (decodeError
                         (if negb (MaxJSONSize (tools w) =? 0)
                          then MaxJSONSize (tools w) else 1024 * 1024) err)), w)
  | (data1, None, dec1) =>
      (Returned (data1,
                 if isEOF (Decode dec1 emptyStruct).1.2 then None
                 else Some multipleValues), w)
  end.
Proof.
  unfold ReadJSON, bodyDecoder. munfold.
  destruct (Decode _ data) as [[data1 [e|]] dec1]; [done |].
  destruct (Decode dec1 emptyStruct) as [[data2 e2] dec2]. simpl.
  by destruct (isEOF e2).
Qed.
End Steps.

(** The reference decoder on the empty struct: an error other than
    [io.EOF] unless only white space is left and the stream ends. *)
Lemma unmarshal_emptyStruct strict j :
  head (unmarshal strict "" (SStruct []) j) ≠ Some io_EOF.
Proof.
  destruct j as [off | off b | off lit | off s | off items | off members];
    simpl; try done.
  induction members as [|[key v] members IH]; simpl; [done |].
  unfold lookupField. simpl. by destruct strict.
Qed.

Lemma refDecode_emptyStruct_EOF d :
  sticky d = None →
  isEOF (refDecode d (mkTarget (SStruct []) None)).1.2
  = bool_decide (skipSpace (input d) = []) && isEOF (Some (atEnd d)).
Proof.
  intros Hsticky. unfold refDecode. rewrite Hsticky.
  destruct (skipSpace (input d)) as [|c rest] eqn:Hspace; [done |].
  rewrite bool_decide_eq_false_2 by done. rewrite andb_false_l.
  destruct (scanValue _ _ _) as [j rest' | rest' |].
  - destruct (isScalar j && bool_decide (rest' = []) && negb (isEOF (Some (atEnd d))))
      eqn:Hcut.
    + simpl. apply andb_prop in Hcut as [_ Hcut]. by destruct (atEnd d); simpl in *.
    + simpl. pose proof (unmarshal_emptyStruct (strict d) j) as Hno.
      by destruct (head _) as [[]|].
  - done.
  - simpl. by destruct (atEnd d).
Qed.

Lemma refDecode_ok_sticky d v v1 d1 :
  refDecode d v = (v1, None, d1) → sticky d1 = None.
Proof.
  unfold refDecode, fails. destruct (sticky d); [done |].
  destruct (skipSpace (input d)); [done |].
  destruct (scanValue _ _ _) as [j rest' | rest' |]; try done.
  destruct (_ && _ && _); [done |]. by intros [= _ _ <-].
Qed.

(** C3: when the first [Decode] has succeeded, [ReadJSON] calls [Decode]
    once more, on the decoder as the first call left it and into an empty
    struct, and returns the [body must contain only one JSON value] error
    unless that second call returns [io.EOF]; the decoded value stays
    behind the pointer.  With the reference decoder the second call
    returns [io.EOF] exactly when nothing but white space is left of a
    body that was not cut by the size limit. *)
Theorem ReadJSON_single_value `{GoLib} :
  (∀ (J : JSONLib) r data w data1 dec1,
     Decode (bodyDecoder (tools w) r) data = (data1, None, dec1) →
     ReadJSON r data w
       = (Returned (data1,
                    if isEOF (Decode dec1 emptyStruct).1.2 then None
                    else Some multipleValues), w)) ∧
  (∀ r data w data1 dec1,
     refDecode (bodyDecoder (H:=refJSON) (tools w) r) data = (data1, None, dec1) →
     ReadJSON (H0:=refJSON) r data w
       = (Returned (data1,
                    if bool_decide (skipSpace (input dec1) = [])
                       && isEOF (Some (atEnd dec1))
                    then None else Some multipleValues), w)).
Proof.
  split.
  - intros J r data w data1 dec1 Hfirst. by rewrite ReadJSON_steps, Hfirst.
  - intros r data w data1 dec1 Hfirst. rewrite ReadJSON_steps.
    change (@Decode refJSON) with refDecode. rewrite Hfirst.
    change (@emptyStruct refJSON) with (mkTarget (SStruct []) None).
    rewrite refDecode_emptyStruct_EOF; [done |].
    by eapply refDecode_ok_sticky.
Qed.

(** C3 on the body of two objects from the package's tests. *)
Lemma ReadJSON_single_value_witness :
  ∃ data1,
    ReadJSON (H:=refLib) (H0:=refJSON)
      (bodyRequest (unq "{qfooq:qbarq}{qalphaq:qbetaq}")) fooTarget
      (sampleWorld zeroTools)
    = (Returned (data1, Some multipleValues), sampleWorld zeroTools).
Proof.
  eexists.
  rewrite (proj2 (ReadJSON_single_value (H:=refLib))
             (bodyRequest (unq "{qfooq:qbarq}{qalphaq:qbetaq}")) fooTarget
             (sampleWorld zeroTools)
             (mkTarget (SStruct [("foo"%string, SString)])
                (Some (JObject 1 [("foo"%string, JString 12 "bar")])))
             (mkRefDecoder (bytes_of (unq "{qalphaq:qbetaq}")) io_EOF 13 true None)).
  - reflexivity.
  - by vm_compute.
Defined.

(** * Further properties *)

(** ** [Slugify]: what is kept and when it fails *)

Lemma not_slugChar_dash : ¬ (slugChar "-" = true).
Proof. by vm_compute. Qed.

Lemma filter_replaceRuns b l :
  filter (λ c, slugChar c = true) (replaceRuns b l)
  = filter (λ c, slugChar c = true) l.
Proof.
  revert b. induction l as [|c l IH]; intros b; simpl; [done |].
  destruct (slugChar c) eqn:Hc.
  - rewrite !filter_cons, Hc. rewrite decide_True by done. by rewrite IH.
  - rewrite (filter_cons _ c l). rewrite decide_False by (rewrite Hc; done).
    destruct b; [apply IH |].
    rewrite filter_cons, decide_False by apply not_slugChar_dash. apply IH.
Qed.

Lemma filter_trimLeft l :
  filter (λ c, slugChar c = true) (trimLeft l) = filter (λ c, slugChar c = true) l.
Proof.
  induction l as [|c l IH]; simpl; [done |].
  destruct (Ascii.eqb c "-") eqn:Hc; [| done].
  apply eqb_dash in Hc as ->.
  by rewrite filter_cons, decide_False by apply not_slugChar_dash.
Qed.

Lemma filter_slug_rev l :
  filter (λ c, slugChar c = true) (rev l) = rev (filter (λ c, slugChar c = true) l).
Proof.
  induction l as [|c l IH]; simpl; [done |].
  rewrite filter_app, IH, !filter_cons, filter_nil.
  destruct (decide (slugChar c = true)); simpl; [done | apply app_nil_r].
Qed.

Lemma filter_trimRight l :
  filter (λ c, slugChar c = true) (trimRight l) = filter (λ c, slugChar c = true) l.
Proof.
  unfold trimRight.
  rewrite filter_slug_rev, filter_trimLeft, filter_slug_rev. apply rev_involutive.
Qed.

(** A trimmed list of slug bytes and dashes is empty only if there was no
    slug byte. *)
Lemma trim_nil l :
  Forall (λ c, slugChar c = true ∨ c = dash) l →
  trimRight (trimLeft l) = [] ↔ filter (λ c, slugChar c = true) l = [].
Proof.
  intros Hl. split.
  - intros Hnil. rewrite <- filter_trimLeft, <- filter_trimRight. by rewrite Hnil.
  - intros Hfilter.
    assert (trimLeft l = []) as ->; [| done].
    clear -Hl Hfilter. induction Hl as [|c l [Hc | ->] _ IH]; simpl; [done | |].
    + rewrite filter_cons, decide_True in Hfilter by done. done.
    + apply IH.
      by rewrite filter_cons, decide_False in Hfilter by apply not_slugChar_dash.
Qed.

Lemma string_of_inj l1 l2 : string_of l1 = string_of l2 → l1 = l2.
Proof.
  intros Heq. apply (f_equal bytes_of) in Heq. by rewrite !bytes_of_string_of in Heq.
Qed.

Lemma len_zero_iff s : (len s =? 0) = true ↔ bytes_of s = [].
Proof.
  unfold len. destruct s; simpl; [done |]. by split.
Qed.

Lemma existsb_filter_nil (l : list ascii) :
  existsb slugChar l = false ↔ filter (λ c, slugChar c = true) l = [].
Proof.
  induction l as [|c l IH]; simpl; [done |]. rewrite filter_cons.
  destruct (decide (slugChar c = true)) as [Hc | Hc].
  - by rewrite Hc.
  - apply not_true_is_false in Hc. by rewrite Hc.
Qed.

Section SlugMore.
Context `{GoLib}.

(** The slug, before the test for emptiness. *)
Lemma slug_bytes s :
  bytes_of (Trim (ReplaceAllString (ToLower s)))
  = trimRight (trimLeft (replaceRuns false (bytes_of (ToLower s)))).
Proof. unfold Trim, ReplaceAllString. by rewrite !bytes_of_string_of. Qed.

(** X1: [Slugify] fails in two ways only and says which: on the empty
    string, and on a string whose lower-cased form has no byte in [a-z] or
    [0-9]; on every other string it returns a slug that is not empty.  The
    string that comes with an error is empty. *)
Theorem Slugify_outcome (s : string) :
  match Slugify s with
  | (slug, None) =>
      s ≠ ""%string ∧ existsb slugChar (bytes_of (ToLower s)) = true ∧
      slug ≠ ""%string
  | (slug, Some e) =>
      slug = ""%string ∧
      ((s = ""%string ∧ e = errorsNew "empty string is not permitted") ∨
       (s ≠ ""%string ∧ existsb slugChar (bytes_of (ToLower s)) = false ∧
        e = errorsNew "after removing characters, slug is zero length"))
  end.
Proof.
  unfold Slugify. destruct (String.eqb_spec s "") as [-> | Hs].
  { split; [done |]. by left. }
  pose proof (slug_bytes s) as Hbytes.
  pose proof (trim_nil _ (replaceRuns_chars false (bytes_of (ToLower s)))) as Hnil.
  rewrite filter_replaceRuns, <- existsb_filter_nil in Hnil.
  destruct (len _ =? 0) eqn:Hlen.
  - split; [done |]. right. split; [done |]. split; [| done].
    apply Hnil. rewrite <- Hbytes. by apply len_zero_iff.
  - split; [done |]. split.
    + apply not_false_iff_true. intros Hex.
      apply Hnil in Hex. rewrite <- Hbytes in Hex.
      apply len_zero_iff in Hex. congruence.
    + intros Hempty. by rewrite Hempty in Hlen.
Qed.

(** X2: a slug consists of the bytes in [a-z] and [0-9] of the lower-cased
    input, all of them and in their order, with dashes in between. *)
Theorem Slugify_keeps_letters_digits (s slug : string) :
  Slugify s = (slug, None) →
  filter (λ c, slugChar c = true) (bytes_of slug)
  = filter (λ c, slugChar c = true) (bytes_of (ToLower s)).
Proof.
  unfold Slugify. destruct (String.eqb s ""); [done |].
  destruct (len _ =? 0); [done |]. intros [= <-].
  by rewrite slug_bytes, filter_trimRight, filter_trimLeft, filter_replaceRuns.
Qed.
End SlugMore.

Lemma trimLeft_id l : (∀ t, l ≠ dash :: t) → trimLeft l = l.
Proof.
  destruct l as [|c l]; simpl; [done |]. intros Hhead.
  destruct (Ascii.eqb c "-") eqn:Hc; [| done].
  apply eqb_dash in Hc as ->. by destruct (Hhead l).
Qed.

Lemma trimRight_id l : (∀ t, l ≠ t ++ [dash]) → trimRight l = l.
Proof.
  intros Hlast. unfold trimRight. rewrite trimLeft_id; [apply rev_involutive |].
  intros t Heq. apply (Hlast (rev t)).
  rewrite <- (rev_involutive l), Heq. done.
Qed.

Lemma replaceRuns_id b l :
  Forall (λ c, slugChar c = true ∨ c = dash) l →
  (∀ a t, l ≠ a ++ dash :: dash :: t) →
  (b = true → ∀ t, l ≠ dash :: t) →
  replaceRuns b l = l.
Proof.
  intros Hchars. revert b. induction Hchars as [|c l Hc _ IH]; intros b Hrun Hhead; [done |].
  simpl. destruct (slugChar c) eqn:Hslug.
  - f_equal. apply IH; [| done].
    intros a t Heq. apply (Hrun (c :: a) t). by rewrite Heq.
  - destruct Hc as [Hc | ->]; [congruence |].
    destruct b; [by destruct (Hhead eq_refl l) |].
    f_equal. apply IH.
    + intros a t Heq. apply (Hrun (dash :: a) t). by rewrite Heq.
    + intros _ t Heq. apply (Hrun [] t). by rewrite Heq.
Qed.

Section SlugIdem.
Context `{GoLib}.

(** X3: [Slugify] is idempotent: a slug is its own slug. *)
Theorem Slugify_idempotent (s slug : string) :
  Slugify s = (slug, None) → Slugify slug = (slug, None).
Proof.
  intros Hs.
  pose proof (Slugify_outcome s) as Hout. rewrite Hs in Hout.
  destruct Hout as (_ & _ & Hne).
  revert Hs. unfold Slugify at 1. destruct (String.eqb s ""); [done |].
  destruct (len _ =? 0); [done |]. intros [= Hslug].
  destruct (trim_shape (replaceRuns false (bytes_of (ToLower s))))
    as (Hchars & Hhead & Hlast & Hrun).
  { apply replaceRuns_chars. }
  { apply replaceRuns_no_dash_run. }
  rewrite <- slug_bytes, Hslug in Hchars, Hhead, Hlast, Hrun.
  assert (ToLower slug = slug) as Hlower.
  { rewrite ToLower_ascii by by apply forallb_isASCII.
    unfold asciiLower. rewrite map_lowerByte_id by done. apply string_of_bytes_of. }
  assert (Trim (ReplaceAllString slug) = slug) as Hfix.
  { unfold Trim, ReplaceAllString. rewrite bytes_of_string_of.
    rewrite replaceRuns_id by done.
    rewrite trimLeft_id, trimRight_id by done. apply string_of_bytes_of. }
  unfold Slugify. rewrite Hlower, Hfix.
  destruct (String.eqb_spec slug "") as [-> | _]; [done |].
  destruct (len slug =? 0) eqn:Hlen; [| done].
  apply len_zero_iff in Hlen. destruct slug; [done | discriminate Hlen].
Qed.
End SlugIdem.

(** X2 and X3 on a slug of the package's test table. *)
Lemma Slugify_keeps_letters_digits_witness :
  filter (λ c, slugChar c = true) (bytes_of "now-is-the-time")
  = filter (λ c, slugChar c = true) (bytes_of (ToLower (GoLib:=refLib) "now is the time")).
Proof.
  apply (Slugify_keeps_letters_digits (H:=refLib) "now is the time" "now-is-the-time").
  reflexivity.
Defined.

Lemma Slugify_idempotent_witness :
  Slugify (H:=refLib) "now-is-the-time" = ("now-is-the-time"%string, None).
Proof.
  apply (Slugify_idempotent (H:=refLib) "now is the time" "now-is-the-time").
  reflexivity.
Defined.

(** ** [RandomString]: the characters that can come out *)

(** A prime above 63 leaves a remainder modulo 63 that shares no factor
    with 63. *)
Lemma prime_mod_63 (p : Z) : Z.prime p → 63 < p → Z.gcd (p mod 63) 63 = 1.
Proof.
  intros Hp Hlt. rewrite Z.gcd_mod by lia. rewrite Z.gcd_comm.
  apply Z.coprime_prime_l; [done |].
  intros Hdiv. apply Z.divide_pos_le in Hdiv; lia.
Qed.

Lemma reachable_indexes :
  forallb (λ i, implb (coprimeIndex i)
                      (bool_decide (nth i (runes randomStringSource) "000"%char
                                    ∈ reachable)))
          (seq 0 63) = true.
Proof. by vm_compute. Qed.

Lemma pick_reachable (p : Z) :
  Z.prime p → 63 < p < 2 ^ 64 → pick (runes randomStringSource) p ∈ reachable.
Proof.
  intros Hp [Hlo Hhi]. unfold pick.
  change (Z.of_nat (length (runes randomStringSource))) with 63.
  assert (Uint64 p = p) as ->.
  { unfold Uint64. rewrite Z.abs_eq by lia. apply Z.mod_small. lia. }
  pose proof (Z.mod_pos_bound p 63 ltac:(lia)) as Hbound.
  pose proof reachable_indexes as Hall. rewrite forallb_forall in Hall.
  specialize (Hall (Z.to_nat (p mod 63)) ltac:(apply in_seq; lia)).
  assert (coprimeIndex (Z.to_nat (p mod 63)) = true) as Hco.
  { unfold coprimeIndex. rewrite Z2Nat.id by lia. apply Z.eqb_eq.
    by apply prime_mod_63. }
  rewrite Hco in Hall. cbn [implb] in Hall. by apply bool_decide_eq_true in Hall.
Qed.

Lemma fillRunes_Forall (P : ascii → Prop) r n rd :
  (∀ i, P (pick r (stream rd i))) → Forall P (fillRunes r n rd).1.
Proof.
  revert rd. induction n as [|n IH]; intros rd HP; simpl; [constructor |].
  specialize (IH (mkRand (stream rd) (S (drawn rd))) HP).
  destruct (fillRunes r n _) as [rest rd2]. simpl in *.
  constructor; [apply HP | done].
Qed.

(** X4: [rand.Prime] hands out primes, and a prime above 63 is never a
    multiple of 3 or 7 modulo 63.  So when the numbers drawn are primes
    (above 63, below 2^64), every character of the string is one of the 36
    characters of the alphabet whose index shares no factor with 63; the
    other 27 never occur, the first one, [a], among them. *)
Theorem RandomString_reachable (n : Z) (w : World) :
  0 ≤ n →
  (∀ i, Z.prime (stream (entropy w) i) ∧ 63 < stream (entropy w) i < 2 ^ 64) →
  ∃ s w',
    RandomString n w = (Returned s, w') ∧
    Forall (λ c, c ∈ reachable) (bytes_of s) ∧
    length reachable = 36%nat ∧
    reachable ⊆ runes randomStringSource ∧
    "a"%char ∉ bytes_of s.
Proof.
  intros Hn Hprimes. unfold RandomString.
  destruct (Z.ltb_spec n 0) as [|_]; [lia |].
  pose proof (fillRunes_Forall (λ c, c ∈ reachable) (runes randomStringSource)
                (Z.to_nat n) (entropy w)) as Hreach.
  destruct (fillRunes _ _ _) as [s rd]. simpl in *.
  assert (Forall (λ c, c ∈ reachable) s) as Hs.
  { apply Hreach. intros i. destruct (Hprimes i). by apply pick_reachable. }
  eexists _, _. split; [done |]. rewrite bytes_of_string_of.
  split_and!; [done | done | compute_done |].
  intros Ha. rewrite Forall_forall in Hs. apply Hs in Ha.
  revert Ha. compute_done.
Qed.

Lemma prime_67 : Z.prime 67.
Proof.
  split; [lia |]. intros n Hn Hdiv.
  apply Z.mod_divide in Hdiv; [| lia].
  assert (forallb (λ k, negb (67 mod Z.of_nat k =? 0)) (seq 2 65) = true) as Hall
    by by vm_compute.
  rewrite forallb_forall in Hall.
  specialize (Hall (Z.to_nat n) ltac:(apply in_seq; lia)).
  rewrite Z2Nat.id, Hdiv in Hall by lia. done.
Qed.

(** X4 for ten characters drawn from the prime 67. *)
Lemma RandomString_reachable_witness :
  ∃ s w',
    RandomString 10 (mkWorld zeroTools sampleDisk primeReader) = (Returned s, w') ∧
    Forall (λ c, c ∈ reachable) (bytes_of s) ∧
    length reachable = 36%nat ∧
    reachable ⊆ runes randomStringSource ∧
    "a"%char ∉ bytes_of s.
Proof.
  apply (RandomString_reachable 10 (mkWorld zeroTools sampleDisk primeReader)).
  - lia.
  - intros i. split; [apply prime_67 | simpl; lia].
Defined.

(** ** Lexical paths *)

Lemma bytes_of_append a b : bytes_of (a +:+ b) = bytes_of a ++ bytes_of b.
Proof. induction a as [|c a IH]; simpl; [done | by rewrite IH]. Qed.

Lemma forallb_app_true {A} (f : A → bool) l1 l2 :
  forallb f (l1 ++ l2) = true ↔ forallb f l1 = true ∧ forallb f l2 = true.
Proof. rewrite forallb_app. apply andb_true_iff. Qed.

Lemma forallb_rev_eq {A} (f : A → bool) l : forallb f (rev l) = forallb f l.
Proof.
  induction l as [|x l IH]; [done |]. simpl.
  rewrite forallb_app, IH. simpl. by rewrite andb_true_r, andb_comm.
Qed.

Lemma splitSlash_slashFree cur n :
  forallb (λ c, negb (Ascii.eqb c "/")) n = true →
  splitSlash cur n = [string_of (rev cur ++ n)].
Proof.
  revert cur. induction n as [|c n IH]; intros cur Hn; simpl.
  { by rewrite app_nil_r. }
  simpl in Hn. apply andb_true_iff in Hn as [Hc Hn].
  destruct (Ascii.eqb c "/"); [done |].
  rewrite IH by done. simpl. by rewrite <- app_assoc.
Qed.

Lemma splitSlash_sep cur a rest :
  forallb (λ c, negb (Ascii.eqb c "/")) a = true →
  splitSlash cur (a ++ "/"%char :: rest) = string_of (rev cur ++ a) :: splitSlash [] rest.
Proof.
  revert cur. induction a as [|c a IH]; intros cur Ha; simpl.
  { by rewrite app_nil_r. }
  simpl in Ha. apply andb_true_iff in Ha as [Hc Ha].
  destruct (Ascii.eqb c "/"); [done |].
  rewrite IH by done. simpl. by rewrite <- app_assoc.
Qed.

Lemma splitSlash_snoc cur a n :
  forallb (λ c, negb (Ascii.eqb c "/")) n = true →
  splitSlash cur (a ++ "/"%char :: n) = splitSlash cur a ++ [string_of n].
Proof.
  intros Hn. revert cur. induction a as [|c a IH]; intros cur; simpl.
  { by rewrite splitSlash_slashFree. }
  destruct (Ascii.eqb c "/"); [by rewrite IH | apply IH].
Qed.

Lemma splitSlash_all_slashFree cur s :
  forallb (λ c, negb (Ascii.eqb c "/")) cur = true →
  Forall (λ e, slashFree e = true) (splitSlash cur s).
Proof.
  revert cur. induction s as [|c s IH]; intros cur Hcur; simpl.
  { constructor; [| done]. unfold slashFree. rewrite bytes_of_string_of.
    by rewrite forallb_rev_eq. }
  destruct (Ascii.eqb c "/") eqn:Hc.
  - constructor; [| by apply IH]. unfold slashFree. rewrite bytes_of_string_of.
    by rewrite forallb_rev_eq.
  - apply IH. simpl. by rewrite Hc.
Qed.

Lemma isName_facts e :
  isName e = true ↔ e ≠ ""%string ∧ e ≠ "."%string ∧ e ≠ ".."%string ∧ slashFree e = true.
Proof.
  unfold isName. rewrite !andb_true_iff, !negb_true_iff, !String.eqb_neq. tauto.
Qed.

Lemma cleanElems_name rooted stack e rest :
  isName e = true →
  cleanElems rooted stack (e :: rest) = cleanElems rooted (e :: stack) rest.
Proof.
  intros (H1 & H2 & H3 & _)%isName_facts. simpl.
  apply String.eqb_neq in H1, H2, H3. by rewrite H1, H2, H3.
Qed.

Lemma cleanElems_names rooted stack names :
  Forall (λ e, isName e = true) names →
  cleanElems rooted stack names = rev stack ++ names.
Proof.
  intros Hall. revert stack. induction Hall as [|e names He _ IH]; intros stack.
  { simpl. by rewrite app_nil_r. }
  rewrite cleanElems_name by done. rewrite IH. simpl. by rewrite <- app_assoc.
Qed.

Lemma cleanElems_snoc rooted stack elems e :
  isName e = true →
  cleanElems rooted stack (elems ++ [e]) = cleanElems rooted stack elems ++ [e].
Proof.
  intros He. revert stack. induction elems as [|x elems IH]; intros stack.
  { simpl app. rewrite cleanElems_name by done. simpl. done. }
  simpl.
  destruct (String.eqb x "" || String.eqb x "."); [apply IH |].
  destruct (String.eqb x "..").
  - destruct stack as [|top below]; [destruct rooted; apply IH |].
    destruct (String.eqb top ".."); apply IH.
  - apply IH.
Qed.

Lemma rev_repeat {A} (x : A) k : rev (repeat x k) = repeat x k.
Proof.
  induction k as [|k IH]; [done |]. simpl. rewrite IH.
  change [x] with (repeat x 1). rewrite <- repeat_app. by rewrite Nat.add_1_r.
Qed.

Lemma cleanElems_dots stack_k k rest :
  cleanElems false (repeat ".."%string stack_k) (repeat ".."%string k ++ rest)
  = cleanElems false (repeat ".."%string (k + stack_k)) rest.
Proof.
  revert stack_k. induction k as [|k IH]; intros j; [done |].
  simpl app. cbn [cleanElems]. cbn [String.eqb Ascii.eqb Bool.eqb orb].
  replace (S k + j)%nat with (k + S j)%nat by lia.
  destruct j as [|j]; simpl repeat at 1.
  - apply (IH 1%nat).
  - cbn [String.eqb Ascii.eqb Bool.eqb]. apply (IH (S (S j))).
Qed.

(** A list of elements in clean form is left as it is. *)
Lemma cleanElems_cleanForm rooted elems :
  cleanForm rooted elems → cleanElems rooted [] elems = elems.
Proof.
  intros (k & names & -> & Hk & Hnames). destruct rooted.
  - rewrite Hk by done. simpl. by rewrite cleanElems_names.
  - rewrite (cleanElems_dots 0 k), cleanElems_names by done.
    by rewrite Nat.add_0_r, rev_repeat.
Qed.

(** The elements that cleaning leaves are in clean form. *)
Lemma cleanElems_shape rooted k names elems :
  (rooted = true → k = 0%nat) → Forall (λ e, isName e = true) names →
  Forall (λ e, slashFree e = true) elems →
  cleanForm rooted (cleanElems rooted (rev names ++ repeat ".."%string k) elems).
Proof.
  intros Hk Hnames Helems. revert k names Hk Hnames.
  induction Helems as [|e elems He _ IH]; intros k names Hk Hnames.
  { simpl. exists k, names. rewrite rev_app_distr, rev_repeat, rev_involutive. done. }
  simpl.
  destruct (String.eqb_spec e "") as [-> | He1]; [by apply IH |].
  destruct (String.eqb_spec e ".") as [-> | He2]; [by apply IH |].
  cbn [orb].
  destruct (String.eqb_spec e "..") as [-> | He3].
  - destruct (rev names) as [|top below] eqn:Hrev.
    + apply (f_equal (@rev _)) in Hrev. rewrite rev_involutive in Hrev. subst names.
      simpl. destruct k as [|k]; simpl.
      * destruct rooted; [by apply (IH 0%nat []) | by apply (IH 1%nat [])].
      * apply (IH (S (S k)) []); [| done]. intros Hr. by specialize (Hk Hr).
    + apply (f_equal (@rev _)) in Hrev. rewrite rev_involutive in Hrev. subst names.
      simpl in Hnames. apply Forall_app in Hnames as [Hbelow Htop].
      apply Forall_inv in Htop. simpl app. cbv beta iota.
      specialize (IH k (rev below) Hk Hbelow). rewrite rev_involutive in IH.
      assert (String.eqb top ".." = false) as Htd.
      { apply isName_facts in Htop. apply String.eqb_neq. tauto. }
      by rewrite Htd.
  - specialize (IH k (names ++ [e]) Hk).
    rewrite rev_app_distr in IH. simpl in IH. apply IH.
    apply Forall_app. split; [done |]. constructor; [| done].
    by apply isName_facts.
Qed.

Lemma elemsOf_cleanForm p : cleanForm (isRooted p) (elemsOf p).
Proof.
  unfold elemsOf.
  apply (cleanElems_shape (isRooted p) 0 []); [done | done |].
  by apply splitSlash_all_slashFree.
Qed.

Lemma cleanForm_slashFree rooted elems :
  cleanForm rooted elems → Forall (λ e, slashFree e = true ∧ e ≠ ""%string) elems.
Proof.
  intros (k & names & -> & _ & Hnames). apply Forall_app. split.
  - clear. induction k; simpl; by constructor.
  - eapply Forall_impl; [apply Hnames |]. intros e He. simpl in He.
    apply isName_facts in He. tauto.
Qed.

Lemma splitSlash_joinSlash elems :
  elems ≠ [] → Forall (λ e, slashFree e = true) elems →
  splitSlash [] (bytes_of (joinSlash elems)) = elems.
Proof.
  intros Hne Hall. induction Hall as [|e elems He Hall IH]; [done |].
  destruct elems as [|e' elems].
  { simpl. rewrite splitSlash_slashFree by done. simpl. by rewrite string_of_bytes_of. }
  change (joinSlash (e :: e' :: elems)) with (e +:+ "/" +:+ joinSlash (e' :: elems)).
  rewrite !bytes_of_append.
  change (bytes_of "/" ++ ?x) with ("/"%char :: x).
  rewrite (splitSlash_sep [] (bytes_of e)) by done.
  change (rev [] ++ ?x) with x. rewrite string_of_bytes_of, IH by done. done.
Qed.

Lemma isRooted_slashFree e : slashFree e = true → isRooted e = false.
Proof.
  destruct e as [|c e]; [done |]. unfold slashFree. simpl.
  intros [Hc _]%andb_true_iff. by apply negb_true_iff.
Qed.

Lemma isRooted_joinSlash e elems :
  e ≠ ""%string → isRooted (joinSlash (e :: elems)) = isRooted e.
Proof.
  intros He. destruct elems as [|e' elems]; [done |].
  change (joinSlash (e :: e' :: elems)) with (e +:+ "/" +:+ joinSlash (e' :: elems)).
  by destruct e.
Qed.

(** Rendering elements in clean form and taking the result apart again
    gives the elements back. *)
Lemma elemsOf_renderPath rooted elems :
  cleanForm rooted elems →
  isRooted (renderPath rooted elems) = rooted ∧
  elemsOf (renderPath rooted elems) = elems.
Proof.
  intros Hform. pose proof (cleanForm_slashFree _ _ Hform) as Hfree.
  assert (isRooted (renderPath rooted elems) = rooted) as Hroot.
  { unfold renderPath. destruct rooted; [done |].
    destruct elems as [|e elems]; [done |].
    apply Forall_inv in Hfree as [Hfree He].
    rewrite isRooted_joinSlash by done. by apply isRooted_slashFree. }
  split; [done |]. unfold elemsOf. rewrite Hroot.
  assert (Forall (λ e, slashFree e = true) elems) as Hfree'
    by (eapply Forall_impl; [apply Hfree | by intros e [He _]]).
  unfold renderPath. destruct rooted.
  - destruct elems as [|e elems]; [done |].
    change (bytes_of ("/" +:+ ?x)) with ("/"%char :: bytes_of x).
    change (splitSlash [] ("/"%char :: ?x)) with (""%string :: splitSlash [] x).
    change (cleanElems true [] (""%string :: ?x)) with (cleanElems true [] x).
    rewrite splitSlash_joinSlash by done. by apply cleanElems_cleanForm.
  - destruct elems as [|e elems]; [done |].
    rewrite splitSlash_joinSlash by done. by apply cleanElems_cleanForm.
Qed.


(** ** [UploadFiles]: the manifest and the disk after a call *)

Lemma RandomString_spec n w :
  0 ≤ n →
  ∃ s rd, RandomString n w = (Returned s, mkWorld (tools w) (disk w) rd) ∧
          String.length s = Z.to_nat n ∧
          Forall (λ c, c ∈ runes randomStringSource) (bytes_of s).
Proof.
  intros Hn. unfold RandomString.
  destruct (Z.ltb_spec n 0) as [|_]; [lia |].
  pose proof (fillRunes_length (runes randomStringSource) (Z.to_nat n) (entropy w)) as Hlen.
  pose proof (fillRunes_elem_of (runes randomStringSource) (Z.to_nat n) (entropy w)) as Hin.
  destruct (fillRunes _ _ _) as [s rd]. simpl in *.
  exists (string_of s), rd. split; [done |].
  rewrite length_string_of, bytes_of_string_of. split; [done |]. by apply Hin.
Qed.

Lemma create_resolve d p x : create d p = inr x → resolve d p = None.
Proof. unfold create. by destruct (resolve d p). Qed.

Section Written.
Context `{GoLib}.

(** The closure, when it succeeds: the entry and the disk. *)
Lemma uploadPart_success renameFile uploadDir hdr files w fs w' :
  uploadPart renameFile uploadDir hdr files w = (Returned (fs, None), w') →
  ∃ f,
    fs = files ++ [f] ∧ entryOf renameFile hdr f ∧
    tools w' = tools w ∧
    disk w' = <[pathOf uploadDir f := Regular (partBytes hdr)]> (disk w) ∧
    resolve (disk w) (filepath_Join uploadDir (NewFileName f)) = None.
Proof.
  unfold uploadPart, entryOf, partBytes, pathOf.
  destruct (Open hdr) as [e | infile] eqn:Hopen; [done |].
  pose proof (Read_spec infile 512) as HR.
  destruct (Read infile 512) as [[[buff n] [e|]] f1]; [done |].
  destruct HR as (Hc1 & Hs1 & Hf1 & Hne & Hrf).
  munfold.
  destruct (isAllowed _ _); cbn [negb]; cbv beta iota; [| done].
  pose proof (Seek0_spec f1) as HS.
  destruct (Seek0 f1) as [[e|] f2]; [done |].
  destruct HS as (Hc2 & Hp2 & Hf2).
  match goal with
  | |- context [let (_, _) := ?m w in _] => set (naming := m w)
  end.
  assert (∃ name rd,
             naming = (Returned name, mkWorld (tools w) (disk w) rd) ∧
             if renameFile then randomName name (filepath_Ext (Filename hdr))
             else name = Filename hdr)
    as (name & rd & -> & Hname).
  { subst naming. destruct renameFile.
    - destruct (RandomString_spec 25 w) as (s & rd & -> & Hlen & Hs); [lia |].
      eexists _, _. split; [reflexivity |]. by exists s.
    - exists (Filename hdr), (entropy w). by destruct w. }
  set (w0 := mkWorld (tools w) (disk w) rd).
  pose proof (os_Create_spec (filepath_Join uploadDir name) w0) as HC.
  destruct (create _ _) as [e | [h d']] eqn:Hcreate; [by rewrite HC |].
  apply create_resolve in Hcreate.
  destruct HC as (-> & -> & -> & Hnodir).
  set (k := filepath_Clean (filepath_Join uploadDir name)) in *.
  set (w1 := mkWorld _ _ _).
  pose proof (io_Copy_spec k f2 w1) as HP.
  destruct (copyFault f2) as [e |]; [by rewrite HP |].
  rewrite HP, Hp2, Hc2, Hc1. simpl. intros [= <- <-].
  eexists. split; [reflexivity |]. simpl. split_and!; try done.
  by rewrite insert_insert_eq.
Qed.


Lemma written_snoc uploadDir d files parts f hdr :
  length files = length parts →
  written uploadDir d (files ++ [f]) (parts ++ [hdr])
  = <[pathOf uploadDir f := Regular (partBytes hdr)]> (written uploadDir d files parts).
Proof.
  intros Hlen. unfold written. rewrite zip_with_app by done. by rewrite foldl_app.
Qed.

Lemma written_cons uploadDir d files parts f hdr :
  written uploadDir d (f :: files) (hdr :: parts)
  = written uploadDir (<[pathOf uploadDir f := Regular (partBytes hdr)]> d) files parts.
Proof. done. Qed.

(** The loop over the parts, when it comes to its end. *)
Lemma rangeHeaders_written renameFile uploadDir hdrs files w fs w' :
  rangeHeaders renameFile uploadDir hdrs files w = (Returned (Next fs), w') →
  ∃ new, fs = files ++ new ∧ Forall2 (entryOf renameFile) hdrs new ∧
         tools w' = tools w ∧ disk w' = written uploadDir (disk w) new hdrs ∧
         ∀ f, head new = Some f →
              resolve (disk w) (filepath_Join uploadDir (NewFileName f)) = None.
Proof.
  revert files w. induction hdrs as [|hdr hdrs IH]; intros files w; simpl.
  { intros [= <- <-]. exists []. by rewrite app_nil_r. }
  munfold.
  destruct (uploadPart renameFile uploadDir hdr files w) as [[[fs1 [e|]] | msg] w1] eqn:Hpart;
    [done | | done].
  intros Hrest.
  destruct (uploadPart_success _ _ _ _ _ _ _ Hpart) as (f & -> & Hentry & Ht & Hd & Hres).
  destruct (IH _ _ Hrest) as (new & -> & Hall & Ht2 & Hd2 & _).
  exists (f :: new). rewrite <- app_assoc. split; [done |].
  split; [by constructor |]. split; [congruence |].
  split; [by rewrite written_cons, <- Hd |].
  by intros f' [= <-].
Qed.

(** A lookup in the disk the parts were written to. *)
Lemma written_lookup uploadDir d files parts p :
  length files = length parts →
  (p ∉ map (pathOf uploadDir) files → written uploadDir d files parts !! p = d !! p) ∧
  (∀ pre f pre' hdr,
     files = pre ++ [f] → parts = pre' ++ [hdr] →
     written uploadDir d files parts !! pathOf uploadDir f = Some (Regular (partBytes hdr))).
Proof.
  intros Hlen. split.
  - revert d parts Hlen. induction files as [|f files IH]; intros d [|hdr parts] Hlen Hp;
      try done.
    rewrite written_cons, IH.
    + apply lookup_insert_ne. intros <-. apply Hp. simpl. left.
    + simpl in Hlen. lia.
    + intros Hin. apply Hp. simpl. by right.
  - intros pre f pre' hdr -> ->.
    rewrite !length_app in Hlen. simpl in Hlen.
    rewrite written_snoc by lia. apply lookup_insert_eq.
Qed.


(** What a successful call leaves: the world after the directory was
    seen to, one entry for each part, and the parts written to the disk. *)
Lemma UploadFiles_success r uploadDir rename w files w' :
  UploadFiles r uploadDir rename w = (Returned (files, None), w') →
  ∃ form w1,
    CreateDirIfNotExist uploadDir (withDefaultMaxFileSize w) = (Returned None, w1) ∧
    ParseMultipartForm r (MaxFileSize (tools w1)) = inr form ∧
    Forall2 (entryOf (renameFlag rename)) (partsOf form) files ∧
    tools w' = tools w1 ∧
    disk w' = written uploadDir (disk w1) files (partsOf form) ∧
    ∀ f, head files = Some f →
         resolve (disk w1) (filepath_Join uploadDir (NewFileName f)) = None.
Proof.
  rewrite UploadFiles_steps.
  destruct (CreateDirIfNotExist uploadDir _) as [[[e|] | msg] w1]; [done | | done].
  destruct (ParseMultipartForm r _) as [e | form] eqn:Hparse; [done |].
  fold (renameFlag rename).
  destruct (rangeHeaders _ _ _ _ _) as [[[res | fs] | msg] w2] eqn:Hloop; [| | done].
  { destruct (rangeHeaders_spec (renameFlag rename) uploadDir (partsOf form) [] w1)
      as (fl & w2' & Hrun & _ & Hfl).
    rewrite Hloop in Hrun. injection Hrun as <- <-.
    destruct Hfl as (e & ->). done. }
  intros [= <- <-].
  destruct (rangeHeaders_written _ _ _ _ _ _ _ Hloop) as (new & -> & Hall & Ht & Hd & Hres).
  by exists form, w1.
Qed.

End Written.

(** [os.Stat] answers "does not exist" when a directory on the way is
    missing or when the way is there and the name is free. *)
Lemma stat_IsNotExist d p :
  os_IsNotExist (errOf (stat d p)) =
  match resolve d p with
  | Some ENOENT => true
  | Some _ => false
  | None =>
      match d !! filepath_Clean p with
      | Some _ => false
      | None => true
      end
  end.
Proof.
  unfold stat. destruct (resolve d p) as [[] |]; try done.
  destruct (d !! filepath_Clean p) as [[|data] |]; try done.
  by destruct (trailingSlash p).
Qed.

(** [CreateDirIfNotExist] by the cases of the path on the disk. *)
Lemma CreateDirIfNotExist_cases path w :
  CreateDirIfNotExist path w =
  match resolve (disk w) path with
  | Some ENOENT => (Returned (Some (os_PathError "mkdir" path ENOENT)), w)
  | Some _ => (Returned None, w)
  | None =>
      match disk w !! filepath_Clean path with
      | Some _ => (Returned None, w)
      | None =>
          (Returned None,
           mkWorld (tools w) (<[filepath_Clean path := Dir]> (disk w)) (entropy w))
      end
  end.
Proof.
  unfold CreateDirIfNotExist, os_Stat, os_Mkdir. munfold.
  rewrite stat_IsNotExist. unfold mkdir.
  destruct (resolve (disk w) path) as [[] |] eqn:Hres; cbv beta iota;
    rewrite ?Hres; try done.
  destruct (disk w !! filepath_Clean path) eqn:Hk; cbv beta iota;
    by rewrite ?Hres, ?Hk.
Qed.

Lemma CreateDirIfNotExist_nil path w w' :
  CreateDirIfNotExist path w = (Returned None, w') →
  tools w' = tools w ∧ entropy w' = entropy w ∧ path ≠ ""%string ∧
  (disk w' = disk w ∨
   disk w !! filepath_Clean path = None ∧ resolve (disk w) path = None ∧
   disk w' = <[filepath_Clean path := Dir]> (disk w)) ∧
  disk w' = (if os_IsNotExist (errOf (stat (disk w) path))
             then <[filepath_Clean path := Dir]> (disk w) else disk w).
Proof.
  rewrite CreateDirIfNotExist_cases, stat_IsNotExist.
  assert (path ≠ ""%string → resolve (disk w) path ≠ Some ENOENT → path ≠ ""%string)
    as _ by done.
  destruct (String.eqb_spec path "") as [-> | Hpath]; [done |].
  destruct (resolve (disk w) path) as [[] |] eqn:Hres; try discriminate;
    try (intros Heq; injection Heq as <-; split_and!; by try left).
  destruct (disk w !! filepath_Clean path) eqn:Hk; intros Heq; injection Heq as <-;
    split_and!; try done; [by left | by right].
Qed.

Section Manifest.
Context `{GoLib}.

(** X5: a manifest that [UploadFiles] returns without an error has one
    entry for each part of the form, in the order in which the loop
    visited the parts.  The entry of a part has the part's [Filename] as
    its [OriginalFileName] and the number of bytes of the part, which is
    not zero, as its [FileSize]; its [NewFileName] is the [Filename] when
    [rename] is false, and otherwise 25 characters of the alphabet of
    [RandomString] followed by [filepath.Ext] of the [Filename]. *)
Theorem UploadFiles_manifest_entries r uploadDir rename w files w' :
  UploadFiles r uploadDir rename w = (Returned (files, None), w') →
  ∃ form,
    ParseMultipartForm r (MaxFileSize (tools w')) = inr form ∧
    length files = length (partsOf form) ∧
    Forall2 (entryOf (renameFlag rename)) (partsOf form) files.
Proof.
  intros Hcall.
  destruct (UploadFiles_success _ _ _ _ _ _ Hcall) as (form & w1 & _ & Hparse & Hall & Ht & _ & _).
  exists form. rewrite Ht. split; [done |]. split; [| done].
  symmetry. by eapply Forall2_length.
Qed.


(** X7: [UploadFiles] does not panic, whatever the request, the
    directory and the disk are.  Whatever it returns, the world it leaves
    has every file and directory that was there before (as a file or as a
    directory, as it was), and the configuration is the one from before
    with the default for [MaxFileSize] filled in. *)
Theorem UploadFiles_never_panics r uploadDir rename w :
  ∃ res w',
    UploadFiles r uploadDir rename w = (Returned res, w') ∧
    tools w' = tools (withDefaultMaxFileSize w) ∧
    (∀ p, disk w !! p = Some Dir → disk w' !! p = Some Dir) ∧
    (∀ p data, disk w !! p = Some (Regular data) →
               ∃ data', disk w' !! p = Some (Regular data')).
Proof.
  destruct (UploadFiles_spec r uploadDir rename w) as (res & w' & Hrun & [Ht Hd] & _).
  exists res, w'. split_and!; try done.
  - intros p Hp. apply (extends_withDefault w) in Hp.
    destruct (Hd _ _ Hp) as ([|data] & Hp' & Hk); done.
  - intros p data Hp. apply (extends_withDefault w) in Hp.
    destruct (Hd _ _ Hp) as ([|data'] & Hp' & Hk); [done |]. by exists data'.
Qed.

(** X8: [UploadOneFile] stores every part of the request, not only one:
    when it returns an entry, that entry is the first of the manifest of
    [UploadFiles], which has an entry for every part of the form, and the
    bytes of all these parts were written to the disk. *)
Theorem UploadOneFile_stores_all_parts r uploadDir rename w f w' :
  UploadOneFile r uploadDir rename w = (Returned (Some f, None), w') →
  ∃ form files before,
    ParseMultipartForm r (MaxFileSize (tools w')) = inr form ∧
    head files = Some f ∧
    Forall2 (entryOf (renameFlag rename)) (partsOf form) files ∧
    (before = disk w ∨ before = <[filepath_Clean uploadDir := Dir]> (disk w)) ∧
    disk w' = written uploadDir before files (partsOf form).
Proof.
  unfold UploadOneFile. munfold. fold (renameFlag rename).
  destruct (UploadFiles r uploadDir [renameFlag rename] w)
    as [[[files [e|]] | msg] w1] eqn:Hcall; [done | | done].
  destruct files as [|f0 files]; [done |]. intros [= -> <-].
  destruct (UploadFiles_success _ _ _ _ _ _ Hcall)
    as (form & w2 & Hdir & Hparse & Hall & Ht & Hd & _).
  apply CreateDirIfNotExist_nil in Hdir as (_ & _ & _ & Hdir & Hbefore).
  exists form, (f :: files), (disk w2). rewrite Ht. split_and!; try done.
  destruct Hdir as [-> | (_ & _ & ->)]; [left | right];
    unfold withDefaultMaxFileSize; by destruct (_ =? _).
Qed.

End Manifest.

Lemma UploadOneFile_steps `{GoLib} r uploadDir rename w :
  UploadOneFile r uploadDir rename w =
  match UploadFiles r uploadDir [renameFlag rename] w with
  | (Returned (_, Some err), w') => (Returned (None, Some err), w')
  | (Returned (f :: _, None), w') => (Returned (Some f, None), w')
  | (Returned ([], None), w') => (Panicked "index out of range [0] with length 0", w')
  | (Panicked msg, w') => (Panicked msg, w')
  end.
Proof.
  unfold UploadOneFile. munfold. fold (renameFlag rename).
  by destruct (UploadFiles r uploadDir [renameFlag rename] w)
    as [[[[|f files] [e|]] | msg] w1].
Qed.

(** X5 on the request with a JPEG and a PNG part, the names made anew. *)
Lemma UploadFiles_manifest_entries_witness :
  ∃ files w' form,
    UploadFiles (H:=refLib) jpegThenPNG "uploads" [] (sampleWorld zeroTools)
      = (Returned (files, None), w') ∧
    ParseMultipartForm jpegThenPNG (MaxFileSize (tools w')) = inr form ∧
    length files = length (partsOf form) ∧
    Forall2 (entryOf (renameFlag [])) (partsOf form) files.
Proof.
  destruct (UploadFiles_spec (H:=refLib) jpegThenPNG "uploads" []
              (sampleWorld zeroTools)) as ([fs e] & w' & Hrun & _ & _).
  assert (∃ fs0, (UploadFiles (H:=refLib) jpegThenPNG "uploads" []
                    (sampleWorld zeroTools)).1 = Returned (fs0, None))
    as (fs0 & Hval) by (eexists; by vm_compute).
  rewrite Hrun in Hval. simpl in Hval. injection Hval as -> ->.
  destruct (UploadFiles_manifest_entries (H:=refLib) jpegThenPNG "uploads" []
              (sampleWorld zeroTools) _ w' Hrun) as (form & Hform).
  exists fs0, w', form. split; [exact Hrun | exact Hform].
Defined.


(** X8 on the request with a JPEG and a PNG part. *)
Lemma UploadOneFile_stores_all_parts_witness :
  ∃ f w' form files before,
    UploadOneFile (H:=refLib) jpegThenPNG "uploads" [false] (sampleWorld zeroTools)
      = (Returned (Some f, None), w') ∧
    ParseMultipartForm jpegThenPNG (MaxFileSize (tools w')) = inr form ∧
    head files = Some f ∧ length files = 2%nat ∧
    Forall2 (entryOf (renameFlag [false])) (partsOf form) files ∧
    (before = disk (sampleWorld zeroTools) ∨
     before = <[filepath_Clean "uploads" := Dir]> (disk (sampleWorld zeroTools))) ∧
    disk w' = written "uploads" before files (partsOf form).
Proof.
  destruct (UploadFiles_spec (H:=refLib) jpegThenPNG "uploads" [renameFlag [false]]
              (sampleWorld zeroTools)) as ([fs e] & w' & Hrun & _ & _).
  assert (∃ f0 f1, (UploadFiles (H:=refLib) jpegThenPNG "uploads" [renameFlag [false]]
                    (sampleWorld zeroTools)).1 = Returned ([f0; f1], None))
    as (f0 & f1 & Hval) by (eexists _, _; by vm_compute).
  rewrite Hrun in Hval. simpl in Hval. injection Hval as -> ->.
  assert (UploadOneFile (H:=refLib) jpegThenPNG "uploads" [false] (sampleWorld zeroTools)
          = (Returned (Some f0, None), w')) as Hone
    by (rewrite UploadOneFile_steps, Hrun; reflexivity).
  destruct (UploadOneFile_stores_all_parts (H:=refLib) jpegThenPNG "uploads" [false]
              (sampleWorld zeroTools) f0 w' Hone)
    as (form & files & before & Hparse & Hhead & Hall & Hrest).
  exists f0, w', form, files, before.
  split; [exact Hone |]. split; [exact Hparse |]. split; [exact Hhead |].
  split; [| split; [exact Hall | exact Hrest]].
  apply Forall2_length in Hall. rewrite <- Hall.
  simpl in Hparse. injection Hparse as <-. reflexivity.
Defined.

(** ** [UploadFiles]: where a renamed file goes *)

Lemma isRooted_append a b : a ≠ ""%string → isRooted (a +:+ b) = isRooted a.
Proof. by destruct a. Qed.

Lemma elemsOf_join dir name :
  dir ≠ ""%string → isName name = true →
  isRooted (dir +:+ "/" +:+ name) = isRooted dir ∧
  elemsOf (dir +:+ "/" +:+ name) = elemsOf dir ++ [name].
Proof.
  intros Hdir Hname. pose proof Hname as (_ & _ & _ & Hfree)%isName_facts.
  split; [by apply isRooted_append |].
  unfold elemsOf. rewrite isRooted_append by done.
  rewrite !bytes_of_append. change (bytes_of "/" ++ ?x) with ("/"%char :: x).
  rewrite splitSlash_snoc by done. rewrite string_of_bytes_of.
  by apply cleanElems_snoc.
Qed.

Lemma cleanForm_snoc rooted elems name :
  cleanForm rooted elems → isName name = true → cleanForm rooted (elems ++ [name]).
Proof.
  intros (k & names & -> & Hk & Hnames) Hname.
  exists k, (names ++ [name]). rewrite <- app_assoc. split_and!; try done.
  apply Forall_app. split; [done |]. by constructor.
Qed.

(** The path of a name joined to a directory: the elements of the
    directory and then the name; the directory is the last on the way. *)
Lemma filepath_Join_name dir name :
  dir ≠ ""%string → isName name = true →
  filepath_Clean (filepath_Join dir name) = filepath_Join dir name ∧
  isRooted (filepath_Join dir name) = isRooted dir ∧
  elemsOf (filepath_Join dir name) = elemsOf dir ++ [name] ∧
  ancestors (filepath_Join dir name) = ancestors dir ++ [filepath_Clean dir].
Proof.
  intros Hdir Hname.
  assert (filepath_Join dir name = renderPath (isRooted dir) (elemsOf dir ++ [name]))
    as Hjoin.
  { unfold filepath_Join. rewrite (proj2 (String.eqb_neq _ _) Hdir). cbn [negb].
    unfold filepath_Clean. by destruct (elemsOf_join dir name Hdir Hname) as [-> ->]. }
  assert (cleanForm (isRooted dir) (elemsOf dir ++ [name])) as Hform
    by (apply cleanForm_snoc; [apply elemsOf_cleanForm | done]).
  destruct (elemsOf_renderPath _ _ Hform) as [Hr He]. rewrite <- Hjoin in Hr, He.
  split_and!; try done.
  - unfold filepath_Clean. by rewrite Hr, He.
  - unfold ancestors. rewrite Hr, He, length_app. simpl length.
    rewrite Nat.add_1_r, seq_S, map_app. simpl. f_equal.
    + apply map_ext_in. intros k Hk%in_seq. by rewrite take_app_le by lia.
    + by rewrite take_app_length.
Qed.

Lemma length_append a b :
  String.length (a +:+ b) = (String.length a + String.length b)%nat.
Proof. induction a as [|c a IH]; simpl; [done | by rewrite IH]. Qed.

Lemma extRev_slashFree acc revp :
  forallb (λ c, negb (Ascii.eqb c "/")) acc = true →
  forallb (λ c, negb (Ascii.eqb c "/")) (extRev acc revp) = true.
Proof.
  revert acc. induction revp as [|c revp IH]; intros acc Hacc; simpl; [done |].
  destruct (Ascii.eqb c "/") eqn:Hc; [done |].
  destruct (Ascii.eqb c "."); simpl; [by rewrite Hc | apply IH; simpl; by rewrite Hc].
Qed.

(** A name made anew is a single path element. *)
Lemma randomName_isName name p :
  randomName name (filepath_Ext p) → isName name = true.
Proof.
  intros (s & -> & Hlen & Hs). apply isName_facts.
  assert (String.length (s +:+ filepath_Ext p) ≥ 25)%nat as Hlong
    by (rewrite length_append; lia).
  split_and!; try (intros Heq; rewrite Heq in Hlong; simpl in Hlong; lia).
  unfold slashFree. rewrite bytes_of_append, forallb_app. apply andb_true_iff. split.
  - apply forallb_forall. intros c Hc. rewrite Forall_forall in Hs.
    apply list_elem_of_In in Hc. specialize (Hs c Hc).
    apply negb_true_iff, Ascii.eqb_neq. intros ->. revert Hs. compute_done.
  - unfold filepath_Ext. rewrite bytes_of_string_of. by apply extRev_slashFree.
Qed.

Lemma walk_elem d dirs k :
  walk d dirs = None → k ∈ dirs → d !! k = Some Dir.
Proof.
  induction dirs as [|x dirs IH]; simpl; intros Hwalk Hk; [by apply elem_of_nil in Hk |].
  destruct (d !! x) as [[|data] |] eqn:Hx; try done.
  apply elem_of_cons in Hk as [-> | Hk]; [done | by apply IH].
Qed.

(** [cleanElems] makes the steps of the walk. *)
Lemma cleanElems_fold rooted stack comps :
  cleanElems rooted stack comps = rev (fold_left (stepInto rooted) comps stack).
Proof.
  revert stack. induction comps as [|e comps IH]; intros stack; [done |].
  simpl. rewrite <- IH. unfold stepInto.
  destruct (String.eqb e "" || String.eqb e "."); [done |].
  destruct (String.eqb e ".."); [| done].
  destruct stack as [|top below]; [by destruct rooted |].
  by destruct (String.eqb top "..").
Qed.

Lemma visitedFrom_app rooted stack a b :
  visitedFrom rooted stack (a ++ b)
  = visitedFrom rooted stack a
      ++ visitedFrom rooted (fold_left (stepInto rooted) a stack) b.
Proof.
  revert stack. induction a as [|e a IH]; intros stack; [done |].
  simpl. by rewrite IH, <- app_assoc.
Qed.

(** The components of a rendered path in clean form. *)
Lemma splitSlash_renderPath rooted elems :
  cleanForm rooted elems → elems ≠ [] →
  splitSlash [] (bytes_of (renderPath rooted elems))
  = (if rooted then [""%string] else []) ++ elems.
Proof.
  intros Hform Hne. pose proof (cleanForm_slashFree _ _ Hform) as Hfree.
  assert (Forall (λ e, slashFree e = true) elems) as Hfree'
    by (eapply Forall_impl; [apply Hfree | by intros e [He _]]).
  unfold renderPath. destruct rooted.
  - change (bytes_of ("/" +:+ ?x)) with ("/"%char :: bytes_of x).
    change (splitSlash [] ("/"%char :: ?x)) with (""%string :: splitSlash [] x).
    by rewrite splitSlash_joinSlash.
  - destruct elems as [|e elems]; [done |]. by rewrite splitSlash_joinSlash.
Qed.

(** The walk to a directory in clean form ends in that directory. *)
Lemma visitedFrom_last rooted elems :
  cleanForm rooted elems →
  renderPath rooted elems ∈ renderPath rooted [] :: visitedFrom rooted [] elems.
Proof.
  intros Hform.
  destruct (rev elems) as [|e revinit] eqn:Hrev.
  { apply (f_equal (@rev _)) in Hrev. rewrite rev_involutive in Hrev. subst elems.
    apply elem_of_cons. by left. }
  apply (f_equal (@rev _)) in Hrev. rewrite rev_involutive in Hrev. simpl in Hrev.
  apply elem_of_cons. right. rewrite Hrev, visitedFrom_app. apply elem_of_app. right.
  assert (e ≠ ""%string ∧ e ≠ "."%string) as [He1 He2].
  { destruct Hform as (k & names & Heq & _ & Hnames). rewrite Hrev in Heq.
    destruct (rev names) as [|n revnames] eqn:Hn.
    - apply (f_equal (@rev _)) in Hn. rewrite rev_involutive in Hn. subst names.
      rewrite app_nil_r in Heq.
      assert (e ∈ repeat ".."%string k) as Hin
        by (rewrite <- Heq; apply elem_of_app; right; apply elem_of_cons; by left).
      apply list_elem_of_In, repeat_spec in Hin. by subst e.
    - apply (f_equal (@rev _)) in Hn. rewrite rev_involutive in Hn. simpl in Hn.
      subst names. rewrite app_assoc in Heq. apply app_inj_tail in Heq as [_ ->].
      apply Forall_app in Hnames as [_ Hn]. apply Forall_inv in Hn.
      apply isName_facts in Hn. tauto. }
  simpl. apply String.eqb_neq in He1, He2. rewrite He1, He2. simpl.
  apply elem_of_cons. left.
  pose proof (cleanElems_cleanForm _ _ Hform) as Hclean.
  rewrite cleanElems_fold, Hrev, fold_left_app in Hclean. simpl in Hclean.
  by rewrite Hclean.
Qed.

(** A name joined to a directory resolves only when the directory is one. *)
Lemma resolve_join_dir d dir name :
  dir ≠ ""%string → isName name = true →
  resolve d (filepath_Join dir name) = None → d !! filepath_Clean dir = Some Dir.
Proof.
  intros Hdir Hname. unfold resolve. destruct (String.eqb _ _); [done |].
  intros Hwalk. apply (walk_elem _ _ _ Hwalk).
  assert (filepath_Join dir name = renderPath (isRooted dir) (elemsOf dir ++ [name]))
    as Hjoin.
  { unfold filepath_Join. rewrite (proj2 (String.eqb_neq _ _) Hdir). cbn [negb].
    unfold filepath_Clean. by destruct (elemsOf_join dir name Hdir Hname) as [-> ->]. }
  destruct (filepath_Join_name dir name Hdir Hname) as (_ & Hr & _ & _).
  assert (cleanForm (isRooted dir) (elemsOf dir ++ [name])) as Hform
    by (apply cleanForm_snoc; [apply elemsOf_cleanForm | done]).
  unfold visited. rewrite Hr, Hjoin, splitSlash_renderPath by (done || by destruct (elemsOf dir)).
  assert (dirPart ((if isRooted dir then [""%string] else []) ++ elemsOf dir ++ [name])
          = (if isRooted dir then [""%string] else []) ++ elemsOf dir) as ->.
  { unfold dirPart. rewrite app_assoc, rev_app_distr. simpl.
    apply isName_facts in Hname as (H1 & H2 & H3 & _).
    apply String.eqb_neq in H1, H2, H3. rewrite H1, H2, H3. simpl.
    by rewrite rev_involutive. }
  assert (visitedFrom (isRooted dir) []
            ((if isRooted dir then [""%string] else []) ++ elemsOf dir)
          = visitedFrom (isRooted dir) [] (elemsOf dir)) as ->
    by by destruct (isRooted dir).
  apply visitedFrom_last, elemsOf_cleanForm.
Qed.

Section Renamed.
Context `{GoLib}.

(** X9: when [UploadFiles] makes the names anew (the default), the
    client's file names decide nothing about where the files go: in a
    call that returns no error, the [NewFileName] of every entry is a
    single path element (no separator, not [.] or [..]), the file of the
    entry is a regular file whose path has the elements of [uploadDir]
    followed by that name, so that the last directory on the way to it is
    the cleaned [uploadDir]; and when the manifest is not empty the
    cleaned [uploadDir] is a directory of the disk. *)
Theorem UploadFiles_renamed_inside r uploadDir rename w files w' :
  renameFlag rename = true →
  UploadFiles r uploadDir rename w = (Returned (files, None), w') →
  Forall (λ f,
            isName (NewFileName f) = true ∧
            isRooted (pathOf uploadDir f) = isRooted uploadDir ∧
            elemsOf (pathOf uploadDir f) = elemsOf uploadDir ++ [NewFileName f] ∧
            ancestors (pathOf uploadDir f)
              = ancestors uploadDir ++ [filepath_Clean uploadDir] ∧
            ∃ data, disk w' !! pathOf uploadDir f = Some (Regular data))
         files ∧
  (files ≠ [] → disk w' !! filepath_Clean uploadDir = Some Dir).
Proof.
  intros Hflag Hcall.
  destruct (UploadFiles_success _ _ _ _ _ _ Hcall)
    as (form & w1 & Hdir & Hparse & Hall & Ht & Hd & Hres).
  apply CreateDirIfNotExist_nil in Hdir as (_ & _ & Hne & _).
  rewrite Hflag in Hall.
  assert (Forall (λ f, isName (NewFileName f) = true) files) as Hnames.
  { clear -Hall. induction Hall as [|hdr f hdrs fs (_ & _ & _ & Hn) _ IH]; [done |].
    constructor; [| done]. by eapply randomName_isName. }
  assert (∀ f, f ∈ files → pathOf uploadDir f = filepath_Join uploadDir (NewFileName f))
    as Hpath.
  { intros f Hf. rewrite Forall_forall in Hnames. unfold pathOf.
    by destruct (filepath_Join_name uploadDir (NewFileName f) Hne (Hnames f Hf)) as (-> & _). }
  split.
  - destruct (UploadFiles_spec r uploadDir rename w) as (res & w0 & Hrun & _ & Hst).
    rewrite Hcall in Hrun. injection Hrun as <- <-.
    destruct Hst as (form' & _ & Hst).
    apply Forall_forall. intros f Hf.
    rewrite Forall_forall in Hnames. pose proof (Hnames f Hf) as Hn.
    rewrite (Hpath f Hf).
    destruct (filepath_Join_name uploadDir (NewFileName f) Hne Hn) as (Hc & Hr & He & Ha).
    split_and!; try done.
    clear -Hst Hf Hc. induction Hst as [|hdr f0 hdrs fs Hst0 _ IH]; [by apply elem_of_nil in Hf |].
    apply elem_of_cons in Hf as [-> | Hf]; [| by apply IH].
    destruct Hst0 as (_ & _ & _ & data & Hdisk). exists data. by rewrite <- Hc.
  - intros Hfiles. destruct files as [|f files]; [done |].
    specialize (Hres f eq_refl).
    assert (isName (NewFileName f) = true) as Hn by by apply Forall_inv in Hnames.
    pose proof (resolve_join_dir _ _ _ Hne Hn Hres) as Hk.
    rewrite Hd.
    destruct (written_lookup uploadDir (disk w1) (f :: files) (partsOf form)
                (filepath_Clean uploadDir)) as [Hw _].
    { symmetry. by eapply Forall2_length. }
    rewrite Hw; [done |].
    intros (f' & Heq & Hin)%list_elem_of_fmap.
    rewrite (Hpath f' Hin) in Heq.
    assert (isName (NewFileName f') = true) as Hn'.
    { rewrite Forall_forall in Hnames. by apply Hnames. }
    destruct (filepath_Join_name uploadDir (NewFileName f') Hne Hn') as (_ & _ & He & _).
    rewrite <- Heq in He.
    destruct (elemsOf_renderPath _ _ (elemsOf_cleanForm uploadDir)) as [_ He'].
    fold (filepath_Clean uploadDir) in He'. rewrite He' in He.
    apply (f_equal (@length _)) in He. rewrite length_app in He. simpl in He. lia.
Qed.

End Renamed.

(** X9 on the request with a JPEG and a PNG part. *)
Lemma UploadFiles_renamed_inside_witness :
  ∃ files w',
    renameFlag [] = true ∧
    UploadFiles (H:=refLib) jpegThenPNG "uploads" [] (sampleWorld zeroTools)
      = (Returned (files, None), w') ∧
    length files = 2%nat ∧
    Forall (λ f,
              isName (NewFileName f) = true ∧
              isRooted (pathOf "uploads" f) = isRooted "uploads" ∧
              elemsOf (pathOf "uploads" f) = elemsOf "uploads" ++ [NewFileName f] ∧
              ancestors (pathOf "uploads" f)
                = ancestors "uploads" ++ [filepath_Clean "uploads"] ∧
              ∃ data, disk w' !! pathOf "uploads" f = Some (Regular data))
           files ∧
    (files ≠ [] → disk w' !! filepath_Clean "uploads" = Some Dir).
Proof.
  destruct (UploadFiles_spec (H:=refLib) jpegThenPNG "uploads" []
              (sampleWorld zeroTools)) as ([fs e] & w' & Hrun & _ & _).
  assert (∃ f0 f1, (UploadFiles (H:=refLib) jpegThenPNG "uploads" []
                    (sampleWorld zeroTools)).1 = Returned ([f0; f1], None))
    as (f0 & f1 & Hval) by (eexists _, _; by vm_compute).
  rewrite Hrun in Hval. simpl in Hval. injection Hval as -> ->.
  exists [f0; f1], w'. split; [reflexivity |]. split; [exact Hrun |].
  split; [reflexivity |].
  exact (UploadFiles_renamed_inside (H:=refLib) jpegThenPNG "uploads" []
           (sampleWorld zeroTools) _ w' eq_refl Hrun).
Defined.

(** ** [UploadFiles]: names that are kept *)








(** ** [CreateDirIfNotExist]: calling it again, and what a nil result means *)



(** X11: a nil result of [CreateDirIfNotExist] does not say that the
    directory is there.  When the path names a regular file, or leads
    through one, [os.Stat] does not answer "does not exist", so nothing is
    created and nil is returned. *)
Theorem CreateDirIfNotExist_nil_without_directory (path : string) (w : World) :
  resolve (disk w) path = Some ENOTDIR ∨
  (∃ data, resolve (disk w) path = None ∧
           disk w !! filepath_Clean path = Some (Regular data)) →
  CreateDirIfNotExist path w = (Returned None, w) ∧
  ∀ err w', CreateDirIfNotExist path w = (Returned err, w') →
            disk w' !! filepath_Clean path = disk w !! filepath_Clean path.
Proof.
  intros Hcase.
  assert (CreateDirIfNotExist path w = (Returned None, w)) as Hrun.
  { rewrite CreateDirIfNotExist_cases.
    destruct Hcase as [-> | (data & -> & ->)]; done. }
  split; [done |]. intros err w'. rewrite Hrun. by intros [= <- <-].
Qed.

(** X11 for the regular file [uploads/a.txt]. *)
Lemma CreateDirIfNotExist_nil_without_directory_witness :
  let w := mkWorld zeroTools fileDisk countingReader in
  (resolve (disk w) "uploads/a.txt" = None ∧
   disk w !! filepath_Clean "uploads/a.txt" = Some (Regular pngBytes)) ∧
  resolve (disk w) "uploads/a.txt/sub" = Some ENOTDIR ∧
  CreateDirIfNotExist "uploads/a.txt" w = (Returned None, w) ∧
  CreateDirIfNotExist "uploads/a.txt/sub" w = (Returned None, w).
Proof.
  assert (resolve fileDisk "uploads/a.txt" = None) as H1 by by vm_compute.
  assert (fileDisk !! filepath_Clean "uploads/a.txt" = Some (Regular pngBytes)) as H2
    by by vm_compute.
  assert (resolve fileDisk "uploads/a.txt/sub" = Some ENOTDIR) as H3 by by vm_compute.
  split; [by split |]. split; [exact H3 |]. split.
  - apply (CreateDirIfNotExist_nil_without_directory "uploads/a.txt"
             (mkWorld zeroTools fileDisk countingReader)).
    right. exists pngBytes. by split.
  - apply (CreateDirIfNotExist_nil_without_directory "uploads/a.txt/sub"
             (mkWorld zeroTools fileDisk countingReader)).
    by left.
Defined.

(** ** [ReadJSON]: the errors it returns *)

Section ReadErrors.
Context `{GoLib} `{JSONLib}.

Lemma decodeError_untyped maxBytes err :
  typedDecoderError (decodeError maxBytes err) = false.
Proof.
  destruct err; simpl; try done;
    repeat match goal with
           | |- context [if ?b then _ else _] => destruct b
           end; done.
Qed.

(** X12: [ReadJSON] does not panic and leaves the world (the receiver,
    the disk) as it is, whatever the decoder does.  An error it returns
    is never one of the errors of the decoder that it tells apart (a
    [json.SyntaxError], [json.UnmarshalTypeError] or
    [json.InvalidUnmarshalError], [io.EOF], [io.ErrUnexpectedEOF]): each
    of these is replaced by an error with a message of the package. *)
Theorem ReadJSON_error_kinds (r : Request) (data : GoValue) (w : World) :
  ∃ v err,
    ReadJSON r data w = (Returned (v, err), w) ∧
    ∀ e, err = Some e → typedDecoderError e = false.
Proof.
  rewrite ReadJSON_steps.
  destruct (Decode (bodyDecoder (tools w) r) data) as [[data1 [e|]] dec1].
  - eexists _, _. split; [reflexivity |]. intros e' [= <-]. apply decodeError_untyped.
  - eexists _, _. split; [reflexivity |].
    destruct (isEOF _); [done |]. by intros e' [= <-].
Qed.

End ReadErrors.

(** ** [WriteJSON], [ErrorJSON] and [PushJSONToRemote] *)

Lemma canonical_Content_Type : CanonicalMIMEHeaderKey "Content-Type" = "Content-Type"%string.
Proof. by vm_compute. Qed.


Section ResponseFacts.
Context `{GoLib} `{MarshalLib} `{HTTPLib}.



(** X15: [PushJSONToRemote] returns either a response, its status code
    and no error, or no response, the status 0 and an error.  The error
    is that of [json.Marshal], of [http.NewRequest] or of the client's
    [Do], in this order.  The request that the client gets is a POST to
    the URI with the marshalled data as body and [Content-Type:
    application/json] as its only header; the client is the first of the
    given ones, or the zero client.  The body of a returned response is
    already closed when the caller gets it. *)
Theorem PushJSONToRemote_outcome (uri : string) (data : any) (client : list Client) :
  let httpClient := match client with c :: _ => c | [] => zeroClient end in
  let request out :=
    mkClientRequest "POST" uri {["Content-Type"%string := ["application/json"%string]]} out in
  match PushJSONToRemote uri data client with
  | (Some res, status, None) =>
      closed res = true ∧ status = StatusCode res ∧
      ∃ out res0,
        Marshal data = inr out ∧ url_Parse uri = None ∧
        Do httpClient (request out) = inr res0 ∧
        StatusCode res = StatusCode res0 ∧ ResponseBody res = ResponseBody res0
  | (None, status, Some err) =>
      status = 0 ∧
      (Marshal data = inl err ∨
       ∃ out, Marshal data = inr out ∧
              (url_Parse uri = Some err ∨
               url_Parse uri = None ∧ Do httpClient (request out) = inl err))
  | _ => False
  end.
Proof.
  intros httpClient request. unfold PushJSONToRemote, http_NewRequest.
  destruct (Marshal data) as [err | out]; [split; [done | by left] |].
  destruct (url_Parse uri) as [err |].
  { split; [done |]. right. exists out. split; [done | by left]. }
  unfold Header_Set. rewrite canonical_Content_Type. cbn [Method URL RequestHeader Payload].
  rewrite insert_empty. fold (request out). fold httpClient.
  destruct (Do httpClient (request out)) as [err | res0] eqn:Hdo.
  { split; [done |]. right. exists out. split; [done | by right]. }
  split_and!; try done. by exists out, res0.
Qed.

End ResponseFacts.

(** The package's tests of [WriteJSON] and [ErrorJSON] pass in the model. *)
Lemma responseTests_pass : writeJSONTestPasses = true ∧ errorJSONTestPasses = true.
Proof. split; by vm_compute. Qed.

(** [PushJSONToRemote] with the echoing client, and on a URL without a
    protocol scheme. *)
Lemma PushJSONToRemote_examples :
  PushJSONToRemote (H0:=refMarshalLib) (H1:=refHTTPLib)
      "http://example.com/some/path" (aString "bar") [echoClient]
    = (Some (mkResponse 202 (quoted "bar") true), 202, None) ∧
  PushJSONToRemote (H0:=refMarshalLib) (H1:=refHTTPLib) ":" (aString "bar") []
    = (None, 0, Some (otherError "missing protocol scheme")) ∧
  PushJSONToRemote (H0:=refMarshalLib) (H1:=refHTTPLib)
      "http://example.com/some/path" aFunc []
    = (None, 0, Some (otherError "json: unsupported type: func()")).
Proof. split_and!; by vm_compute. Qed.
